(** * js-ids: the Snowflake generator and the service entry point

    A shallow embedding of [src/generators/snowflake-generator.ts], of
    [src/services/id.service.ts] and of the two generators the service
    makes besides ([nano-id-generator.ts], [uuid-v4-generator.ts]),
    followed by the properties established about them.

    Conventions of the embedding.
    - A JavaScript [number] field or local of the generator (worker id,
      process id, epoch, sequence, timestamps) holds an integer of magnitude
      at most [Number.MAX_SAFE_INTEGER]; it is modelled as a [Z], and [<],
      [===] and the increment of the sequence on such values are the ones
      of [Z].  The difference of two such values can pass 2^53, where not
      every integer is a double: [-] is the subtraction of doubles, which
      rounds ([JS.sub]).  The 32-bit coercion of the bitwise operators is
      written out ([ToInt32]).
    - A [bigint] is a [Z]; [<<], [>>], [|] and [&] on bigints are
      [Z.shiftl], [Z.shiftr], [Z.lor] and [Z.land] (two's complement,
      unbounded).
    - [Number(b)] for a bigint [b] is the nearest double, ties to even,
      overflowing to an infinity: the only place where a value of unbounded
      size enters a [number].
    - A string is a [string] of code units below 256.
    - Fractions and code units from 256 on are outside the embedding.
      [NaN] and the infinities come in where a caller can pass them: the
      worker id and the process id given to the constructor
      ([SnowflakeGenerator.Passed]).
    - [Date.now()] is an oracle: the machine carries the readings the clock
      will deliver, in order.  A call that needs a reading when none is left
      is still running ([Pending]).
    - A method is a computation over the machine (the receiver's fields and
      the clock) that completes normally, throws, or is still running; the
      machine after a throw is the one at the [throw]. *)

From Stdlib Require Import ZArith List String Ascii Bool Lia.
From Stdlib Require Import Decimal DecimalString DecimalZ.
From Stdlib Require Import Sorted.
Import ListNotations.

#[local] Open Scope string_scope.
#[local] Open Scope list_scope.
#[local] Open Scope Z_scope.

(** ** The JavaScript operations the source relies on *)

Module JS.

(** *** Numbers and bitwise operators on numbers *)

(** [ToInt32]: reduction modulo 2^32 into [-2^31, 2^31). *)
Definition ToInt32 (x : Z) : Z :=
  let m := x mod 2 ^ 32 in
  if m <? 2 ^ 31 then m else m - 2 ^ 32.

(** [a << b] on numbers. *)
Definition shl (a b : Z) : Z :=
  ToInt32 (Z.shiftl (ToInt32 a) (ToInt32 b mod 32)).

(** [a & b] on numbers. *)
Definition band (a b : Z) : Z :=
  Z.land (ToInt32 a) (ToInt32 b).

(** *** Values of type [number] that may not be integers of bounded size *)

Inductive number : Type :=
| Finite (z : Z)
| PosInfinity
| NegInfinity.

(** [Number(b)] for a bigint [b]: the double nearest to [b].  Below 2^53 in
    magnitude every integer is a double.  Above, the magnitude keeps its 53
    leading bits, rounded to nearest with ties to the even significand; a
    result of 2^1024 or more is an infinity. *)
Definition Number (b : Z) : number :=
  let a := Z.abs b in
  if a <? 2 ^ 53 then Finite b
  else
    let e := Z.log2 a - 52 in
    let q := Z.shiftr a e in
    let r := Z.land a (Z.ones e) in
    let half := 2 ^ (e - 1) in
    let q' := if r <? half then q
              else if half <? r then q + 1
              else if Z.even q then q else q + 1 in
    let v := Z.shiftl q' e in
    if 2 ^ 1024 <=? v
    then (if b <? 0 then NegInfinity else PosInfinity)
    else Finite (Z.sgn b * v).

(** The double nearest to an integer of magnitude below 2^1024, as an
    integer: the rounding of [Number], without the overflow. *)
Definition nearest (x : Z) : Z :=
  let a := Z.abs x in
  if a <? 2 ^ 53 then x
  else
    let e := Z.log2 a - 52 in
    let q := Z.shiftr a e in
    let r := Z.land a (Z.ones e) in
    let half := 2 ^ (e - 1) in
    let q' := if r <? half then q
              else if half <? r then q + 1
              else if Z.even q then q else q + 1 in
    Z.sgn x * Z.shiftl q' e.

(** [a - b] on numbers that hold integers: the double nearest to the
    difference.  For operands of magnitude at most
    [Number.MAX_SAFE_INTEGER] the difference is below 2^54 in magnitude:
    itself up to 2^53, an even integer above. *)
Definition sub (a b : Z) : Z := nearest (a - b).

(** [BigInt(n)] for a number [n] holding an integer. *)
Definition BigInt_of_number (n : Z) : Z := n.

(** A [number] as a caller may pass it where the code expects an integer:
    one that holds an integer, an infinity, or [NaN]. *)
Inductive passed : Type :=
| Num (n : number)
| NaN.

(** [x < y] and [x > y] for such a number and an integer: every comparison
    with [NaN] is false. *)
Definition lt (x : passed) (y : Z) : bool :=
  match x with
  | Num (Finite z) => z <? y
  | Num NegInfinity => true
  | Num PosInfinity => false
  | NaN => false
  end.

Definition gt (x : passed) (y : Z) : bool :=
  match x with
  | Num (Finite z) => z >? y
  | Num PosInfinity => true
  | Num NegInfinity => false
  | NaN => false
  end.

(** The time value of [new Date(t)]: [None] is the invalid date, which
    [TimeClip] gives outside 8.64e15 milliseconds around 1970. *)
Definition Date_new (t : number) : option Z :=
  match t with
  | Finite z => if Z.abs z <=? 8640000000000000 then Some z else None
  | _ => None
  end.

(** *** Strings *)

(** [b.toString()] for a bigint, and the string a number holding an integer
    of magnitude at most 2^54 converts to in a template literal (there the
    shortest digits that identify the double are all the digits of the
    integer): the decimal digits, with a leading minus sign for a negative
    value. *)
Definition toString (z : Z) : string :=
  NilEmpty.string_of_int (Z.to_int z).

(** White space and line terminators that [StringToBigInt] strips. *)
Definition StrWhiteSpaceChar (c : ascii) : bool :=
  let n := N_of_ascii c in
  ((9 <=? n) && (n <=? 13) || (n =? 32) || (n =? 160))%N.

Fixpoint trimStart (s : string) : string :=
  match s with
  | EmptyString => EmptyString
  | String c s' => if StrWhiteSpaceChar c then trimStart s' else s
  end.

Fixpoint trimEnd (s : string) : string :=
  match s with
  | EmptyString => EmptyString
  | String c s' =>
      match trimEnd s' with
      | EmptyString => if StrWhiteSpaceChar c then EmptyString
                       else String c EmptyString
      | r => String c r
      end
  end.

Definition trim (s : string) : string := trimEnd (trimStart s).

(** The value of a digit in a base up to 16. *)
Definition digit_value (c : ascii) : option Z :=
  let n := Z.of_N (N_of_ascii c) in
  if (48 <=? n) && (n <=? 57) then Some (n - 48)
  else if (97 <=? n) && (n <=? 102) then Some (n - 87)
  else if (65 <=? n) && (n <=? 70) then Some (n - 55)
  else None.

(** The mathematical value of a run of digits of the base, most significant
    first, continuing from [acc]. *)
Fixpoint digits_value (base acc : Z) (s : string) : option Z :=
  match s with
  | EmptyString => Some acc
  | String c s' =>
      match digit_value c with
      | Some d => if d <? base then digits_value base (acc * base + d) s'
                  else None
      | None => None
      end
  end.

(** [NonDecimalIntegerLiteral] without its two-character prefix: at least
    one digit. *)
Definition nonDecimal (base : Z) (s : string) : option Z :=
  match s with
  | EmptyString => None
  | _ => digits_value base 0 s
  end.

(** [DecimalDigits]: at least one decimal digit. *)
Definition decimalDigits (s : string) : option Z :=
  match NilEmpty.uint_of_string s with
  | Some Nil => None
  | Some d => Some (Z.of_uint d)
  | None => None
  end.

(** [StringToBigInt]: [None] is the [SyntaxError] of [BigInt(s)].  A string
    of white space only is zero; a prefixed literal takes no sign. *)
Definition StringToBigInt (s : string) : option Z :=
  match trim s with
  | EmptyString => Some 0
  | String "0" (String "x" r) | String "0" (String "X" r) => nonDecimal 16 r
  | String "0" (String "o" r) | String "0" (String "O" r) => nonDecimal 8 r
  | String "0" (String "b" r) | String "0" (String "B" r) => nonDecimal 2 r
  | String "+" r => decimalDigits r
  | String "-" r => option_map Z.opp (decimalDigits r)
  | r => decimalDigits r
  end.

End JS.

Arguments JS.sub : simpl never.
Arguments JS.nearest : simpl never.

(** ** Completions and the machine *)

(** What a [throw] carries: [new Error(message)], or the [SyntaxError] of
    [BigInt(input)] (its message is the engine's). *)
Inductive exn : Type :=
| Error (message : string)
| SyntaxError (input : string).

Inductive Completion (A : Type) : Type :=
| Normal (a : A)
| Throw (e : exn)
| Pending.

Arguments Normal {A} a.
Arguments Throw {A} e.
Arguments Pending {A}.

(** The optional fields of [SnowflakeOptions]
    ([interfaces/id-generator.interface.ts]); [None] is [undefined]. *)
Module SnowflakeOptions.
Record t : Type := mk {
  workerId : option Z;
  processId : option Z;
  epoch : option Z
}.
End SnowflakeOptions.

(** [o?.f], [x || d] and [x ?? d] on optional numbers: [||] takes the
    default for every falsy value, [??] only for [undefined]. *)
Definition opt_chain {A B : Type} (o : option A) (f : A -> option B) : option B :=
  match o with
  | Some x => f x
  | None => None
  end.

Definition logical_or (x : option Z) (d : Z) : Z :=
  match x with
  | Some v => if v =? 0 then d else v
  | None => d
  end.

Definition nullish (x : option Z) (d : Z) : Z :=
  match x with
  | Some v => v
  | None => d
  end.

Notation "o ?. f" := (opt_chain o f) (at level 20, left associativity, format "o ?. f").

(** ** [SnowflakeGenerator] *)

Module SnowflakeGenerator.

(** The fields that differ between instances; the [readonly] bit lengths,
    maxima and shifts are the same in all of them and are the constants
    below. *)
Record t : Type := mk {
  workerId : Z;
  processId : Z;
  epoch : Z;
  sequence : Z;
  lastTimestamp : Z
}.

Definition WORKER_ID_BITS : Z := 5.
Definition PROCESS_ID_BITS : Z := 5.
Definition SEQUENCE_BITS : Z := 12.

Definition MAX_WORKER_ID : Z := JS.shl 1 WORKER_ID_BITS - 1.
Definition MAX_PROCESS_ID : Z := JS.shl 1 PROCESS_ID_BITS - 1.
Definition MAX_SEQUENCE : Z := JS.shl 1 SEQUENCE_BITS - 1.

Definition TIMESTAMP_SHIFT : Z := WORKER_ID_BITS + PROCESS_ID_BITS + SEQUENCE_BITS.
Definition WORKER_ID_SHIFT : Z := PROCESS_ID_BITS + SEQUENCE_BITS.
Definition PROCESS_ID_SHIFT : Z := SEQUENCE_BITS.

(** The machine a method runs on: the receiver and the readings
    [Date.now()] will deliver. *)
Record Machine : Type := mkMachine {
  this : t;
  clock : list Z
}.

Definition M (A : Type) : Type := Machine -> Completion A * Machine.

Definition ret {A : Type} (a : A) : M A := fun m => (Normal a, m).

Definition bind {A B : Type} (c : M A) (k : A -> M B) : M B :=
  fun m =>
    match c m with
    | (Normal a, m') => k a m'
    | (Throw e, m') => (Throw e, m')
    | (Pending, m') => (Pending, m')
    end.

Definition throw {A : Type} (e : exn) : M A := fun m => (Throw e, m).

Declare Scope js_scope.
Delimit Scope js_scope with js.
Notation "x <- c ;; k" := (bind c (fun x => k))
  (at level 100, c at next level, right associativity) : js_scope.
Notation "c ;; k" := (bind c (fun _ => k))
  (at level 100, right associativity) : js_scope.

Definition get_this : M t := fun m => (Normal (this m), m).

Definition set_sequence (v : Z) : M unit :=
  fun m =>
    let g := this m in
    (Normal tt,
     mkMachine (mk (workerId g) (processId g) (epoch g) v (lastTimestamp g))
               (clock m)).

Definition set_lastTimestamp (v : Z) : M unit :=
  fun m =>
    let g := this m in
    (Normal tt,
     mkMachine (mk (workerId g) (processId g) (epoch g) (sequence g) v)
               (clock m)).

(** [constructor(options?)]: the field initialisers ([sequence = 0],
    [lastTimestamp = -1]) and then the body; a throw leaves no instance. *)
Definition constructor (options : option SnowflakeOptions.t) : Completion t :=
  let epoch := logical_or (options?.SnowflakeOptions.epoch) 1733011200000 in
  let workerId := nullish (options?.SnowflakeOptions.workerId) 1 in
  if (workerId <? 0) || (workerId >? MAX_WORKER_ID) then
    Throw (Error ("Worker ID must be between 0 and " ++ JS.toString MAX_WORKER_ID)%string)
  else
    let processId := nullish (options?.SnowflakeOptions.processId) 1 in
    if (processId <? 0) || (processId >? MAX_PROCESS_ID) then
      Throw (Error ("Process ID must be between 0 and " ++ JS.toString MAX_PROCESS_ID)%string)
    else
      Normal (mk workerId processId epoch 0 (-1)).

(** The constructor once more, with the worker id and the process id any
    [number] a caller can pass: the options type them [number], which has
    [NaN] and the infinities.  The instance holds the two ids as they were
    passed. *)
Module Passed.

Record Options : Type := mkOptions {
  options_workerId : option JS.passed;
  options_processId : option JS.passed;
  options_epoch : option Z
}.

Record t : Type := mk {
  workerId : JS.passed;
  processId : JS.passed;
  epoch : Z;
  sequence : Z;
  lastTimestamp : Z
}.

(** [x ?? d]: [NaN] is neither [null] nor [undefined]. *)
Definition nullish (x : option JS.passed) (d : Z) : JS.passed :=
  match x with
  | Some v => v
  | None => JS.Num (JS.Finite d)
  end.

Definition constructor (options : option Options) : Completion t :=
  let epoch := logical_or (options?.options_epoch) 1733011200000 in
  let workerId := nullish (options?.options_workerId) 1 in
  if JS.lt workerId 0 || JS.gt workerId MAX_WORKER_ID then
    Throw (Error ("Worker ID must be between 0 and " ++ JS.toString MAX_WORKER_ID)%string)
  else
    let processId := nullish (options?.options_processId) 1 in
    if JS.lt processId 0 || JS.gt processId MAX_PROCESS_ID then
      Throw (Error ("Process ID must be between 0 and " ++ JS.toString MAX_PROCESS_ID)%string)
    else
      Normal (mk workerId processId epoch 0 (-1)).

(** Options and instances whose ids are integers, among these. *)
Definition of_options (o : SnowflakeOptions.t) : Options :=
  mkOptions (option_map (fun z => JS.Num (JS.Finite z)) (SnowflakeOptions.workerId o))
            (option_map (fun z => JS.Num (JS.Finite z)) (SnowflakeOptions.processId o))
            (SnowflakeOptions.epoch o).

Definition of_instance (g : SnowflakeGenerator.t) : t :=
  mk (JS.Num (JS.Finite (SnowflakeGenerator.workerId g)))
     (JS.Num (JS.Finite (SnowflakeGenerator.processId g)))
     (SnowflakeGenerator.epoch g) (SnowflakeGenerator.sequence g)
     (SnowflakeGenerator.lastTimestamp g).

End Passed.

(** [getCurrentTimestamp()]: [Date.now()], the next reading of the clock. *)
Definition getCurrentTimestamp : M Z :=
  fun m =>
    match clock m with
    | [] => (Pending, m)
    | now :: rest => (Normal now, mkMachine (this m) rest)
    end.

(** The [while (timestamp <= lastTimestamp)] loop of [waitNextMillis], one
    reading for each turn. *)
Fixpoint waitNextMillis_while (lastTimestamp timestamp : Z) (readings : list Z)
  : Completion Z * list Z :=
  if timestamp <=? lastTimestamp then
    match readings with
    | [] => (Pending, [])
    | now :: rest => waitNextMillis_while lastTimestamp now rest
    end
  else (Normal timestamp, readings).

Definition waitNextMillis (lastTimestamp : Z) : M Z :=
  (timestamp <- getCurrentTimestamp ;;
   fun m =>
     let (r, rest) := waitNextMillis_while lastTimestamp timestamp (clock m) in
     (r, mkMachine (this m) rest))%js.

(** The [id] that the last lines of [getId] build, "using BigInt to avoid
    precision loss", from the receiver's fields and the timestamp. *)
Definition getId_id (g : t) (timestamp : Z) : Z :=
  let timestampBits :=
    Z.shiftl (JS.BigInt_of_number (JS.sub timestamp (epoch g)))
             (JS.BigInt_of_number TIMESTAMP_SHIFT) in
  let workerIdBits :=
    Z.shiftl (JS.BigInt_of_number (workerId g))
             (JS.BigInt_of_number WORKER_ID_SHIFT) in
  let processIdBits :=
    Z.shiftl (JS.BigInt_of_number (processId g))
             (JS.BigInt_of_number PROCESS_ID_SHIFT) in
  let sequenceBits := JS.BigInt_of_number (sequence g) in
  Z.lor (Z.lor (Z.lor timestampBits workerIdBits) processIdBits) sequenceBits.

(** [getId()]. *)
Definition getId : M string :=
  (timestamp <- getCurrentTimestamp ;;
   g <- get_this ;;
   if timestamp <? lastTimestamp g then
     throw (Error ("Clock moved backwards. Refusing to generate ID for "
                   ++ JS.toString (JS.sub (lastTimestamp g) timestamp)
                   ++ " milliseconds")%string)
   else
     timestamp <-
       (if timestamp =? lastTimestamp g then
          set_sequence (JS.band (sequence g + 1) MAX_SEQUENCE) ;;
          g <- get_this ;;
          if sequence g =? 0 then waitNextMillis timestamp else ret timestamp
        else
          set_sequence 0 ;;
          ret timestamp) ;;
     set_lastTimestamp timestamp ;;
     g <- get_this ;;
     ret (JS.toString (getId_id g timestamp)))%js.

(** The object [deconstruct] returns. *)
Module Parts.
Record t : Type := mk {
  timestamp : JS.number;
  workerId : JS.number;
  processId : JS.number;
  sequence : JS.number;
  date : option Z
}.
End Parts.

(** [deconstruct(id)]. *)
Definition deconstruct (id : string) : M Parts.t :=
  (g <- get_this ;;
   match JS.StringToBigInt id with
   | None => throw (SyntaxError id)
   | Some snowflakeId =>
       let timestamp :=
         JS.Number (Z.shiftr snowflakeId (JS.BigInt_of_number TIMESTAMP_SHIFT)
                    + JS.BigInt_of_number (epoch g)) in
       let workerId :=
         JS.Number (Z.land (Z.shiftr snowflakeId (JS.BigInt_of_number WORKER_ID_SHIFT))
                           (JS.BigInt_of_number MAX_WORKER_ID)) in
       let processId :=
         JS.Number (Z.land (Z.shiftr snowflakeId (JS.BigInt_of_number PROCESS_ID_SHIFT))
                           (JS.BigInt_of_number MAX_PROCESS_ID)) in
       let sequence :=
         JS.Number (Z.land snowflakeId (JS.BigInt_of_number MAX_SEQUENCE)) in
       ret (Parts.mk timestamp workerId processId sequence (JS.Date_new timestamp))
   end)%js.

End SnowflakeGenerator.

(** ** [IdService.getSnowflake] *)

(** Of [IdGeneratorOptions] and of the service, the parts [getSnowflake]
    reads: [this.options.snowflake]. *)
Module IdGeneratorOptions.
Record t : Type := mk {
  snowflake : option SnowflakeOptions.t
}.
End IdGeneratorOptions.

Module IdService.

Record t : Type := mk {
  options : IdGeneratorOptions.t
}.

(** [getSnowflake(options?)]: a new generator for this call, then its
    [getId()]; the clock is the only part of the machine that outlives the
    call. *)
Definition getSnowflake (svc : t) (options : option SnowflakeOptions.t)
           (readings : list Z) : Completion string * list Z :=
  let finalOptions :=
    match options with
    | Some o => Some o
    | None => IdGeneratorOptions.snowflake (IdService.options svc)
    end in
  match SnowflakeGenerator.constructor finalOptions with
  | Normal generator =>
      let (r, m) :=
        SnowflakeGenerator.getId (SnowflakeGenerator.mkMachine generator readings) in
      (r, SnowflakeGenerator.clock m)
  | Throw e => (Throw e, readings)
  | Pending => (Pending, readings)
  end.

End IdService.

(** ** Runs, and the vocabulary of the statements *)

Import SnowflakeGenerator.

(** The ranges the constructor checks and [getId] maintains. *)
Definition wf (g : t) : Prop :=
  0 <= workerId g <= 31 /\ 0 <= processId g <= 31 /\ 0 <= sequence g <= 4095.

(** The receiver with its two mutable fields replaced. *)
Definition with_state (g : t) (sequence' lastTimestamp' : Z) : t :=
  mk (workerId g) (processId g) (epoch g) sequence' lastTimestamp'.

(** [n] successive calls of [getId()] on one instance, each completion
    recorded: a caller that catches a throw goes on calling. *)
Fixpoint calls (n : nat) (m : Machine) : list (Completion string) * Machine :=
  match n with
  | O => ([], m)
  | S k =>
      let (r, m1) := getId m in
      let (rs, m2) := calls k m1 in
      (r :: rs, m2)
  end.

(** The ids among the completions of a run, in order. *)
Fixpoint returned (rs : list (Completion string)) : list string :=
  match rs with
  | [] => []
  | Normal id :: rs' => id :: returned rs'
  | _ :: rs' => returned rs'
  end.

(** The order on (lastTimestamp, sequence) pairs. *)
Definition lex_lt (a b : Z * Z) : Prop :=
  fst a < fst b \/ (fst a = fst b /\ snd a < snd b).

(** The first [n] readings of a clock given as a function of the number of
    reads made so far. *)
Definition readings_of (s : nat -> Z) (n : nat) : list Z :=
  map s (seq 0 n).

(** The ids of the first [k] sequence numbers of the millisecond
    [timestamp], as [getId] builds them on [g]. *)
Definition ids_of_millisecond (g : t) (timestamp : Z) (k : nat) : list Z :=
  map (fun i => getId_id (with_state g (Z.of_nat i) timestamp) timestamp) (seq 0 k).

(** [Number.MAX_SAFE_INTEGER]. *)
Definition MAX_SAFE_INTEGER : Z := 2 ^ 53 - 1.

(** The message of the error [getId] throws when the clock went back. *)
Definition clock_moved_backwards (regression : Z) : exn :=
  Error ("Clock moved backwards. Refusing to generate ID for "
         ++ JS.toString regression ++ " milliseconds")%string.

(** The ways one call of [getId()] goes on a receiver [g] whose sequence is
    in range, by what the clock delivers: the completion and the machine
    the call leaves. *)
Inductive getId_step (g : t) : list Z -> Completion string -> Machine -> Prop :=
| step_no_reading :
    getId_step g [] Pending (mkMachine g [])
| step_backwards now rest :
    now < lastTimestamp g ->
    getId_step g (now :: rest)
      (Throw (clock_moved_backwards (JS.sub (lastTimestamp g) now)))
      (mkMachine g rest)
| step_new_millisecond now rest :
    lastTimestamp g < now ->
    getId_step g (now :: rest)
      (Normal (JS.toString (getId_id (with_state g 0 now) now)))
      (mkMachine (with_state g 0 now) rest)
| step_same_millisecond now rest :
    now = lastTimestamp g -> sequence g < 4095 ->
    getId_step g (now :: rest)
      (Normal (JS.toString (getId_id (with_state g (sequence g + 1) now) now)))
      (mkMachine (with_state g (sequence g + 1) now) rest)
| step_wrap now spun next rest :
    now = lastTimestamp g -> sequence g = 4095 ->
    Forall (fun r => r <= now) spun -> now < next ->
    getId_step g (now :: spun ++ next :: rest)
      (Normal (JS.toString (getId_id (with_state g 0 next) next)))
      (mkMachine (with_state g 0 next) rest)
| step_wrap_spinning now spun :
    now = lastTimestamp g -> sequence g = 4095 ->
    Forall (fun r => r <= now) spun ->
    getId_step g (now :: spun) Pending
      (mkMachine (with_state g 0 (lastTimestamp g)) []).

(** ** The other generators and the service in full *)

(** The calls into the [uuid] and [nanoid] packages.  What they return is
    not this repository's: the environment holds the strings the packages
    will deliver, in order, and records each call made. *)
Inductive LibraryCall : Type :=
| uuidv4_call
| nanoid_call (size : option Z)
| customAlphabet_call (alphabet : string) (size : Z).

(** What the methods of the service read from outside: the clock, and the
    two packages. *)
Module Env.
Record t : Type := mk {
  clock : list Z;
  library : list string;
  requests : list LibraryCall
}.
End Env.

Definition library_call (c : LibraryCall) (env : Env.t) : Completion string * Env.t :=
  match Env.library env with
  | [] => (Pending, env)
  | s :: rest => (Normal s, Env.mk (Env.clock env) rest (Env.requests env ++ [c]))
  end.

(** [x] when it is there, else [y]: a key of [{...a, ...b}], with [x] from
    [b] and [y] from [a].  A key is absent or holds a value; a key present
    with the value [undefined] is outside the embedding. *)
Definition or_else {A : Type} (x y : option A) : option A :=
  match x with
  | Some v => Some v
  | None => y
  end.

(** [NanoIdOptions] ([interfaces/id-generator.interface.ts]). *)
Module NanoIdOptions.
Record t : Type := mk {
  alphabet : option string;
  size : option Z
}.

(** [{ ...a, ...b }] where [a] may be [undefined]. *)
Definition spread (a : option t) (b : t) : t :=
  mk (or_else (alphabet b) (a?.alphabet)) (or_else (size b) (a?.size)).
End NanoIdOptions.

(** [NanoIdGenerator] ([generators/nano-id-generator.ts]): its [generator]
    field is one of three functions. *)
Module NanoIdGenerator.

Inductive t : Type :=
| custom (alphabet : string) (size : Z)
| sized (size : Z)
| plain.

(** [constructor(options?)]: an empty alphabet and a size of 0 are falsy. *)
Definition constructor (options : option NanoIdOptions.t) : t :=
  match options?.NanoIdOptions.alphabet with
  | Some (String c rest) =>
      custom (String c rest) (logical_or (options?.NanoIdOptions.size) 21)
  | _ =>
      match options?.NanoIdOptions.size with
      | Some size => if size =? 0 then plain else sized size
      | None => plain
      end
  end.

(** [getId()]: [customAlphabet(alphabet, size)()], [nanoid(options.size)] or
    [nanoid()]. *)
Definition getId (g : t) (env : Env.t) : Completion string * Env.t :=
  library_call
    match g with
    | custom alphabet size => customAlphabet_call alphabet size
    | sized size => nanoid_call (Some size)
    | plain => nanoid_call None
    end
    env.

End NanoIdGenerator.

(** [UuidV4Generator.getId()] ([generators/uuid-v4-generator.ts]). *)
Module UuidV4Generator.
Definition getId (env : Env.t) : Completion string * Env.t :=
  library_call uuidv4_call env.
End UuidV4Generator.

(** [IdGeneratorType]; [other] is any string outside the five, which the
    [default] of [createGenerator] receives. *)
Module IdGeneratorType.
Inductive t : Type :=
| uuidv4
| uuidv7
| snowflake
| cuid
| nanoid
| other (name : string).
End IdGeneratorType.

(** [IdGeneratorOptions] with its three keys; [IdGeneratorOptions.t] above is
    the part [getSnowflake] reads. *)
Module ServiceOptions.
Record t : Type := mk {
  type : option IdGeneratorType.t;
  snowflake : option SnowflakeOptions.t;
  nanoid : option NanoIdOptions.t
}.

(** [{}]. *)
Definition empty : t := mk None None None.

(** [{ ...a, ...b }]: key by key, a nested object is taken whole. *)
Definition spread (a b : t) : t :=
  mk (or_else (type b) (type a))
     (or_else (snowflake b) (snowflake a))
     (or_else (nanoid b) (nanoid a)).

Definition view (o : t) : IdGeneratorOptions.t :=
  IdGeneratorOptions.mk (snowflake o).

(** [options.type || 'uuidv4']: [undefined] and the empty string are
    falsy. *)
Definition type_or_default (o : t) : IdGeneratorType.t :=
  match type o with
  | None => IdGeneratorType.uuidv4
  | Some (IdGeneratorType.other EmptyString) => IdGeneratorType.uuidv4
  | Some ty => ty
  end.
End ServiceOptions.

(** [IdService] ([services/id.service.ts]) with its two fields and all its
    methods.  A method runs on the instance and the environment. *)
Module Service.

(** The implementations of [IIdGenerator] the [generator] field holds. *)
Inductive Generator : Type :=
| uuid_v4
| nano_id (g : NanoIdGenerator.t)
| snowflake (g : SnowflakeGenerator.t).

Record t : Type := mk {
  options : ServiceOptions.t;
  generator : Generator
}.

Definition M (A : Type) : Type := t * Env.t -> Completion A * (t * Env.t).

(** [createGenerator(type, options)]. *)
Definition createGenerator (type : IdGeneratorType.t) (options : ServiceOptions.t)
  : Completion Generator :=
  match type with
  | IdGeneratorType.uuidv4 => Normal uuid_v4
  | IdGeneratorType.uuidv7 => Throw (Error "UUIDv7 generator not yet implemented")
  | IdGeneratorType.snowflake =>
      match SnowflakeGenerator.constructor (ServiceOptions.snowflake options) with
      | Normal g => Normal (snowflake g)
      | Throw e => Throw e
      | Pending => Pending
      end
  | IdGeneratorType.cuid => Throw (Error "CUID generator not yet implemented")
  | IdGeneratorType.nanoid =>
      Normal (nano_id (NanoIdGenerator.constructor (ServiceOptions.nanoid options)))
  | IdGeneratorType.other _ => Normal uuid_v4
  end.

(** [constructor(options = {})]. *)
Definition constructor (options : option ServiceOptions.t) : Completion t :=
  let options := match options with
                 | Some o => o
                 | None => ServiceOptions.empty
                 end in
  let type := ServiceOptions.type_or_default options in
  match createGenerator type options with
  | Normal g => Normal (mk options g)
  | Throw e => Throw e
  | Pending => Pending
  end.

(** [IdService.getInstance(options?)] on the static [instance]: the
    instance returned is the one the class holds afterwards. *)
Definition getInstance (options : option ServiceOptions.t) (instance : option t)
  : Completion t * option t :=
  match instance with
  | Some svc => (Normal svc, Some svc)
  | None =>
      match constructor options with
      | Normal svc => (Normal svc, Some svc)
      | Throw e => (Throw e, None)
      | Pending => (Pending, None)
      end
  end.

(** [configure(options)]: the options are merged before the generator is
    made. *)
Definition configure (options : ServiceOptions.t) : M unit :=
  fun '(svc, env) =>
    let merged := ServiceOptions.spread (Service.options svc) options in
    let type := ServiceOptions.type_or_default options in
    match createGenerator type merged with
    | Normal g => (Normal tt, (mk merged g, env))
    | Throw e => (Throw e, (mk merged (generator svc), env))
    | Pending => (Pending, (mk merged (generator svc), env))
    end.

(** [getId()]: the [getId()] of the generator held. *)
Definition getId : M string :=
  fun '(svc, env) =>
    match generator svc with
    | uuid_v4 =>
        let (r, env') := UuidV4Generator.getId env in (r, (svc, env'))
    | nano_id g =>
        let (r, env') := NanoIdGenerator.getId g env in (r, (svc, env'))
    | snowflake g =>
        let (r, m) :=
          SnowflakeGenerator.getId (SnowflakeGenerator.mkMachine g (Env.clock env)) in
        (r, (mk (Service.options svc) (snowflake (SnowflakeGenerator.this m)),
             Env.mk (SnowflakeGenerator.clock m) (Env.library env) (Env.requests env)))
    end.

(** [getUuidV4()]. *)
Definition getUuidV4 : M string :=
  fun '(svc, env) =>
    let (r, env') := UuidV4Generator.getId env in (r, (svc, env')).

(** [getUuidV7()] and [getCuid()]. *)
Definition getUuidV7 : M string :=
  fun s => (Throw (Error "UUIDv7 generator not yet implemented"), s).

Definition getCuid : M string :=
  fun s => (Throw (Error "CUID generator not yet implemented"), s).

(** [getSnowflake(options?)], as [IdService.getSnowflake] above has it. *)
Definition getSnowflake (options : option SnowflakeOptions.t) : M string :=
  fun '(svc, env) =>
    let (r, readings) :=
      IdService.getSnowflake
        (IdService.mk (ServiceOptions.view (Service.options svc)))
        options (Env.clock env) in
    (r, (svc, Env.mk readings (Env.library env) (Env.requests env))).

(** [getNanoId(options?)]. *)
Definition getNanoId (options : option NanoIdOptions.t) : M string :=
  fun '(svc, env) =>
    let finalOptions :=
      match options with
      | Some o =>
          Some (NanoIdOptions.spread (ServiceOptions.nanoid (Service.options svc)) o)
      | None => ServiceOptions.nanoid (Service.options svc)
      end in
    let (r, env') :=
      NanoIdGenerator.getId (NanoIdGenerator.constructor finalOptions) env in
    (r, (svc, env')).

(** [n] successive calls of the service's [getId()]. *)
Fixpoint getIds (n : nat) (s : t * Env.t) : list (Completion string) * (t * Env.t) :=
  match n with
  | O => ([], s)
  | S k =>
      let (r, s1) := getId s in
      let (rs, s2) := getIds k s1 in
      (r :: rs, s2)
  end.

End Service.

(** ** The class and its one instance *)

(** [IdService.instance] is a static field, and the constructor is private:
    the only service a program holds is the one [getInstance] returned,
    the object in the field.  A method called on any reference runs on that
    object and leaves its changes in it. *)
Module Class.

(** What a program does with the class: [IdService.getInstance(options)],
    or a method on a reference it holds. *)
Inductive Call : Type :=
| getInstance (options : option ServiceOptions.t)
| configure (options : ServiceOptions.t)
| getId
| getUuidV4
| getUuidV7
| getCuid
| getSnowflake (options : option SnowflakeOptions.t)
| getNanoId (options : option NanoIdOptions.t).

(** What a call gives the program: a reference to the object in the field,
    nothing, a string, an exception; or the call has not returned; or the
    program held no reference to call the method on. *)
Inductive Outcome : Type :=
| the_instance
| void
| text (s : string)
| thrown (e : exn)
| running
| no_reference.

(** The static field and the environment. *)
Record t : Type := mk {
  instance : option Service.t;
  env : Env.t
}.

Definition outcome {A : Type} (r : Completion A) (normal : A -> Outcome) : Outcome :=
  match r with
  | Normal a => normal a
  | Throw e => thrown e
  | Pending => running
  end.

(** A method on the object in the field. *)
Definition method {A : Type} (m : Service.M A) (normal : A -> Outcome) (w : t)
  : Outcome * t :=
  match instance w with
  | None => (no_reference, w)
  | Some svc =>
      let '(r, (svc', env')) := m (svc, env w) in
      (outcome r normal, mk (Some svc') env')
  end.

Definition call (c : Call) (w : t) : Outcome * t :=
  match c with
  | getInstance options =>
      let (r, cell) := Service.getInstance options (instance w) in
      (outcome r (fun _ => the_instance), mk cell (env w))
  | configure options => method (Service.configure options) (fun _ => void) w
  | getId => method Service.getId text w
  | getUuidV4 => method Service.getUuidV4 text w
  | getUuidV7 => method Service.getUuidV7 text w
  | getCuid => method Service.getCuid text w
  | getSnowflake options => method (Service.getSnowflake options) text w
  | getNanoId options => method (Service.getNanoId options) text w
  end.

(** The calls of a program in order; a program that catches an exception
    goes on, one whose call has not returned does not. *)
Fixpoint run (cs : list Call) (w : t) : list Outcome * t :=
  match cs with
  | [] => ([], w)
  | c :: cs' =>
      let (o, w1) := call c w in
      match o with
      | running => ([running], w1)
      | _ => let (os, w2) := run cs' w1 in (o :: os, w2)
      end
  end.

(** The arguments of the [configure] calls of a program, in order. *)
Fixpoint configured (cs : list Call) : list ServiceOptions.t :=
  match cs with
  | [] => []
  | configure options :: cs' => options :: configured cs'
  | _ :: cs' => configured cs'
  end.

End Class.

(** ** The constants *)

Lemma constants :
  MAX_WORKER_ID = 31 /\ MAX_PROCESS_ID = 31 /\ MAX_SEQUENCE = 4095 /\
  TIMESTAMP_SHIFT = 22 /\ WORKER_ID_SHIFT = 17 /\ PROCESS_ID_SHIFT = 12.
Proof. repeat split. Qed.

(** ** The subtraction of doubles *)

Section Rounding.

(** An integer of magnitude at most [MAX_SAFE_INTEGER] is a double. *)
Lemma nearest_safe (x : Z) : Z.abs x <= MAX_SAFE_INTEGER -> JS.nearest x = x.
Proof.
  intros Hx. unfold JS.nearest, MAX_SAFE_INTEGER in *.
  replace (Z.abs x <? 2 ^ 53) with true by (symmetry; apply Z.ltb_lt; lia).
  reflexivity.
Qed.

(** From 2^53 on rounding keeps the sign and stays at 2^53 or above. *)
Lemma nearest_large (x : Z) :
  2 ^ 53 <= Z.abs x ->
  exists v, 2 ^ 53 <= v /\ JS.nearest x = Z.sgn x * v.
Proof.
  intros Hx. unfold JS.nearest. cbv zeta.
  replace (Z.abs x <? 2 ^ 53) with false by (symmetry; apply Z.ltb_ge; assumption).
  set (a := Z.abs x) in *. set (e := Z.log2 a - 52).
  set (q := Z.shiftr a e).
  match goal with |- context [Z.shiftl ?b e] => set (q' := b) end.
  exists (Z.shiftl q' e). split; [| reflexivity].
  assert (Ha : 0 < a) by (assert (0 < 2 ^ 53) by reflexivity; lia).
  assert (Hlog : 53 <= Z.log2 a) by (apply Z.log2_le_pow2; assumption).
  assert (He : 1 <= e) by (subst e; lia).
  assert (Hpow : 0 < 2 ^ e) by (apply Z.pow_pos_nonneg; lia).
  assert (Hq : 2 ^ 52 <= q).
  { subst q. rewrite Z.shiftr_div_pow2 by lia.
    assert (Hspec : 2 ^ Z.log2 a <= a) by (apply Z.log2_spec; assumption).
    replace (2 ^ 52) with (2 ^ Z.log2 a / 2 ^ e).
    - apply Z.div_le_mono; assumption.
    - rewrite <- Z.pow_sub_r by lia. f_equal. subst e. lia. }
  assert (Hq' : q <= q').
  { subst q'. destruct (_ <? _); [lia |].
    destruct (_ <? _); [lia |]. destruct (Z.even q); lia. }
  rewrite Z.shiftl_mul_pow2 by lia.
  assert (Hpow1 : 2 ^ 1 <= 2 ^ e) by (apply Z.pow_le_mono_r; lia).
  change (2 ^ 53) with (2 ^ 52 * 2 ^ 1).
  apply Z.mul_le_mono_nonneg; try lia. 
Qed.

(** The subtraction of doubles: exact while the difference is at most
    [MAX_SAFE_INTEGER] in magnitude, and never across 2^53 or the sign. *)
Lemma sub_safe (a b : Z) :
  Z.abs (a - b) <= MAX_SAFE_INTEGER -> JS.sub a b = a - b.
Proof. apply nearest_safe. Qed.

Lemma sub_cases (a b : Z) :
  (Z.abs (a - b) <= MAX_SAFE_INTEGER /\ JS.sub a b = a - b) \/
  (2 ^ 53 <= a - b /\ 2 ^ 53 <= JS.sub a b) \/
  (a - b <= - 2 ^ 53 /\ JS.sub a b <= - 2 ^ 53).
Proof.
  unfold JS.sub.
  destruct (Z_le_gt_dec (Z.abs (a - b)) MAX_SAFE_INTEGER) as [Hsafe | Hlarge].
  - left. split; [assumption | apply nearest_safe; assumption].
  - right. unfold MAX_SAFE_INTEGER in Hlarge.
    destruct (nearest_large (a - b)) as (v & Hv & ->); [lia |].
    destruct (Z_le_gt_dec 0 (a - b)) as [Hpos | Hneg].
    + left. rewrite Z.sgn_pos by lia. lia.
    + right. rewrite Z.sgn_neg by lia. lia.
Qed.

(** The double that [Number] gives is the nearest one, short of the
    overflow. *)
Lemma Number_nearest (x : Z) :
  Z.abs x < 2 ^ 1023 -> JS.Number x = JS.Finite (JS.nearest x).
Proof.
  intros Hx. unfold JS.Number, JS.nearest. cbv zeta.
  destruct (Z.ltb_spec (Z.abs x) (2 ^ 53)) as [Hsmall | Hbig]; [reflexivity |].
  set (a := Z.abs x) in *. set (e := Z.log2 a - 52).
  set (q := Z.shiftr a e).
  match goal with |- context [Z.shiftl ?b e] => set (q' := b) end.
  assert (Ha : 0 < a) by (assert (0 < 2 ^ 53) by reflexivity; lia).
  assert (Hlog : 53 <= Z.log2 a) by (apply Z.log2_le_pow2; assumption).
  assert (Hlog' : Z.log2 a < 1023) by (apply Z.log2_lt_pow2; assumption).
  assert (He : 1 <= e) by (subst e; lia).
  assert (Hpow : 0 < 2 ^ e) by (apply Z.pow_pos_nonneg; lia).
  assert (Hq : q < 2 ^ 53).
  { subst q. rewrite Z.shiftr_div_pow2 by lia.
    apply Z.div_lt_upper_bound; [assumption |].
    rewrite <- Z.pow_add_r by lia.
    replace (e + 53) with (Z.succ (Z.log2 a)) by (subst e; lia).
    apply Z.log2_spec. assumption. }
  assert (Hq' : q' <= 2 ^ 53).
  { subst q'. destruct (_ <? _); [lia |].
    destruct (_ <? _); [lia |]. destruct (Z.even q); lia. }
  assert (Hq0 : 0 <= q').
  { assert (0 <= q) by (subst q; apply Z.shiftr_nonneg; lia).
    subst q'. destruct (_ <? _); [lia |].
    destruct (_ <? _); [lia |]. destruct (Z.even q); lia. }
  replace (2 ^ 1024 <=? Z.shiftl q' e) with false; [reflexivity |].
  symmetry. apply Z.leb_gt.
  rewrite Z.shiftl_mul_pow2 by lia.
  apply Z.le_lt_trans with (2 ^ 53 * 2 ^ e).
  - apply Z.mul_le_mono_nonneg_r; lia.
  - rewrite <- Z.pow_add_r by lia. apply Z.pow_lt_mono_r; subst e; lia.
Qed.

End Rounding.

(** ** Arithmetic of the bit layout *)

Section Layout.

(** Below the bits a left shift leaves empty, [|] adds. *)
Lemma lor_shiftl_low (a n b : Z) :
  0 <= n -> 0 <= b < 2 ^ n -> Z.lor (Z.shiftl a n) b = a * 2 ^ n + b.
Proof.
  intros Hn Hb.
  assert (Hdisj : Z.land (Z.shiftl a n) b = 0).
  { apply Z.bits_inj'. intros i Hi.
    rewrite Z.land_spec, Z.bits_0.
    destruct (Z.lt_ge_cases i n) as [Hlt | Hge].
    - rewrite Z.shiftl_spec_low by assumption. reflexivity.
    - replace b with (b mod 2 ^ n) by (apply Z.mod_small; assumption).
      rewrite Z.mod_pow2_bits_high by lia.
      apply andb_false_r. }
  rewrite <- Z.lxor_lor by assumption.
  rewrite <- Z.add_nocarry_lxor by assumption.
  rewrite Z.shiftl_mul_pow2 by assumption.
  reflexivity.
Qed.

(** [x & (2^n - 1)] keeps the residue modulo [2^n], whatever the sign. *)
Lemma land_mask (x n : Z) : 0 <= n -> Z.land x (2 ^ n - 1) = x mod 2 ^ n.
Proof.
  intros Hn. rewrite <- Z.land_ones by assumption.
  rewrite Z.ones_equiv. f_equal; lia.
Qed.

(** The increment of the sequence under the 12-bit mask. *)
Lemma band_sequence (s : Z) :
  0 <= s <= 4095 -> JS.band (s + 1) MAX_SEQUENCE = (s + 1) mod 4096.
Proof.
  intros Hs. unfold JS.band, JS.ToInt32.
  change MAX_SEQUENCE with (2 ^ 12 - 1).
  rewrite (Z.mod_small (s + 1)) by lia.
  rewrite (Z.mod_small (2 ^ 12 - 1)) by lia.
  replace (s + 1 <? 2 ^ 31) with true by (symmetry; apply Z.ltb_lt; lia).
  replace (2 ^ 12 - 1 <? 2 ^ 31) with true by reflexivity.
  apply land_mask. lia.
Qed.

Lemma band_sequence_next (s : Z) :
  0 <= s < 4095 -> JS.band (s + 1) MAX_SEQUENCE = s + 1.
Proof.
  intros Hs. rewrite band_sequence by lia. apply Z.mod_small. lia.
Qed.

Lemma band_sequence_wrap : JS.band (4095 + 1) MAX_SEQUENCE = 0.
Proof. reflexivity. Qed.

(** The id as a sum: the three [|] of [getId] never meet a carry. *)
Lemma getId_id_sum (g : t) (timestamp : Z) :
  wf g ->
  getId_id g timestamp =
  JS.sub timestamp (epoch g) * 2 ^ 22 + workerId g * 2 ^ 17
  + processId g * 2 ^ 12 + sequence g.
Proof.
  intros (Hw & Hp & Hs). unfold getId_id, JS.BigInt_of_number.
  change TIMESTAMP_SHIFT with 22. change WORKER_ID_SHIFT with 17.
  change PROCESS_ID_SHIFT with 12.
  rewrite <- !Z.lor_assoc.
  rewrite (lor_shiftl_low (processId g) 12) by lia.
  rewrite (lor_shiftl_low (workerId g) 17) by lia.
  rewrite (lor_shiftl_low (JS.sub timestamp (epoch g)) 22) by lia.
  lia.
Qed.

(** The same while timestamp - epoch is an integer a double holds. *)
Lemma getId_id_sum_safe (g : t) (timestamp : Z) :
  wf g -> Z.abs (timestamp - epoch g) <= MAX_SAFE_INTEGER ->
  getId_id g timestamp =
  (timestamp - epoch g) * 2 ^ 22 + workerId g * 2 ^ 17
  + processId g * 2 ^ 12 + sequence g.
Proof.
  intros Hg Hsafe. rewrite getId_id_sum by assumption.
  rewrite sub_safe by assumption. reflexivity.
Qed.

(** The four fields read back from such a sum. *)
Lemma fields_of_sum (d w p s : Z) :
  0 <= w <= 31 -> 0 <= p <= 31 -> 0 <= s <= 4095 ->
  let id := d * 2 ^ 22 + w * 2 ^ 17 + p * 2 ^ 12 + s in
  Z.shiftr id 22 = d /\
  Z.land (Z.shiftr id 17) 31 = w /\
  Z.land (Z.shiftr id 12) 31 = p /\
  Z.land id 4095 = s.
Proof.
  intros Hw Hp Hs id.
  change 31 with (2 ^ 5 - 1). change 4095 with (2 ^ 12 - 1).
  rewrite !land_mask by lia.
  rewrite !Z.shiftr_div_pow2 by lia.
  subst id.
  change (2 ^ 22) with 4194304. change (2 ^ 17) with 131072.
  change (2 ^ 12) with 4096. change (2 ^ 5) with 32.
  repeat split.
  - symmetry. apply (Z.div_unique _ 4194304 d (w * 131072 + p * 4096 + s)); lia.
  - replace ((d * 4194304 + w * 131072 + p * 4096 + s) / 131072)
      with (d * 32 + w).
    + symmetry. apply (Z.mod_unique _ 32 d w); lia.
    + apply (Z.div_unique _ 131072 _ (p * 4096 + s)); lia.
  - replace ((d * 4194304 + w * 131072 + p * 4096 + s) / 4096)
      with ((d * 32 + w) * 32 + p).
    + symmetry. apply (Z.mod_unique _ 32 (d * 32 + w) p); lia.
    + apply (Z.div_unique _ 4096 _ s); lia.
  - symmetry.
    apply (Z.mod_unique _ 4096 ((d * 32 + w) * 32 + p) s); lia.
Qed.

(** The id grows with the pair (timestamp, sequence), while the later
    timestamp less the epoch is an integer a double holds. *)
Lemma getId_id_lex (g g' : t) (ts ts' : Z) :
  wf g -> wf g' ->
  workerId g' = workerId g -> processId g' = processId g -> epoch g' = epoch g ->
  Z.abs (ts' - epoch g) <= MAX_SAFE_INTEGER ->
  lex_lt (ts, sequence g) (ts', sequence g') ->
  getId_id g ts < getId_id g' ts'.
Proof.
  intros Hg Hg' Hw Hp He Hsafe Hlex.
  rewrite !getId_id_sum by assumption.
  rewrite Hw, Hp, He.
  destruct Hg as (_ & _ & Hs), Hg' as (_ & _ & Hs').
  rewrite (sub_safe ts') by assumption.
  unfold MAX_SAFE_INTEGER in Hsafe.
  change (2 ^ 53 - 1) with 9007199254740991 in Hsafe.
  change (2 ^ 22) with 4194304.
  destruct Hlex as [Hlt | [Heq Hlt]]; cbn [fst snd] in *.
  - destruct (sub_cases ts (epoch g)) as [(_ & ->) | [(Hbig & _) | (_ & Hlow)]];
      change (2 ^ 53) with 9007199254740992 in *; lia.
  - subst ts'. rewrite sub_safe by assumption. lia.
Qed.

(** With the timestamp in the 41-bit window the id fits 63 bits. *)
Lemma getId_id_range (g : t) (ts : Z) :
  wf g -> epoch g <= ts <= epoch g + 2 ^ 41 - 1 ->
  0 <= getId_id g ts < 2 ^ 63.
Proof.
  intros Hg Hts.
  change (2 ^ 41) with 2199023255552 in Hts.
  rewrite getId_id_sum_safe;
    [| assumption
     | unfold MAX_SAFE_INTEGER; change (2 ^ 53 - 1) with 9007199254740991; lia].
  destruct Hg as (Hw & Hp & Hs).
  change (2 ^ 63) with 9223372036854775808.
  change (2 ^ 22) with 4194304. change (2 ^ 17) with 131072.
  change (2 ^ 12) with 4096.
  lia.
Qed.

End Layout.

(** ** Decimal strings *)

Section DecimalStrings.

(** A decimal digit is no white space. *)
Lemma digit_not_space (c : ascii) (d d' : uint) :
  uint_of_char c (Some d) = Some d' -> JS.StrWhiteSpaceChar c = false.
Proof.
  intros H. apply uint_of_char_spec in H.
  repeat (destruct H as [[-> _] | H]; [reflexivity |]).
  destruct H as [-> _]. reflexivity.
Qed.

Lemma uint_of_string_cons (c : ascii) (s : string) (d : uint) :
  NilEmpty.uint_of_string (String c s) = Some d ->
  exists d0, NilEmpty.uint_of_string s = Some d0 /\
             uint_of_char c (Some d0) = Some d.
Proof.
  simpl. destruct (NilEmpty.uint_of_string s) as [d0 |].
  - intros H. exists d0. split; [reflexivity | assumption].
  - discriminate.
Qed.

Lemma trimStart_digits (s : string) (d : uint) :
  NilEmpty.uint_of_string s = Some d -> JS.trimStart s = s.
Proof.
  destruct s as [| c s]; [reflexivity |].
  intros H. apply uint_of_string_cons in H. destruct H as (d0 & _ & Hc).
  simpl. rewrite (digit_not_space _ _ _ Hc). reflexivity.
Qed.

Lemma trimEnd_digits (s : string) :
  forall d, NilEmpty.uint_of_string s = Some d -> JS.trimEnd s = s.
Proof.
  induction s as [| c s IH]; intros d H; [reflexivity |].
  apply uint_of_string_cons in H. destruct H as (d0 & Hs & Hc).
  simpl. rewrite (IH d0 Hs).
  destruct s; [rewrite (digit_not_space _ _ _ Hc) |]; reflexivity.
Qed.

(** On a run of decimal digits [StringToBigInt] takes none of its prefixed
    or signed branches. *)
Lemma StringToBigInt_digits (s : string) (d : uint) :
  NilEmpty.uint_of_string s = Some d -> d <> Nil ->
  JS.StringToBigInt s = Some (Z.of_uint d).
Proof.
  intros H Hd. unfold JS.StringToBigInt, JS.trim.
  rewrite (trimStart_digits s d H), (trimEnd_digits s d H).
  assert (Hdec : JS.decimalDigits s = Some (Z.of_uint d)).
  { unfold JS.decimalDigits. rewrite H. destruct d; congruence. }
  destruct s as [| c s].
  - simpl in H. congruence.
  - pose proof H as H'.
    apply uint_of_string_cons in H'. destruct H' as (d0 & Hs & Hc).
    apply uint_of_char_spec in Hc.
    destruct Hc as [[-> _] | Hc].
    + destruct s as [| c2 s]; [exact Hdec |].
      apply uint_of_string_cons in Hs. destruct Hs as (d1 & _ & Hc2).
      apply uint_of_char_spec in Hc2.
      repeat (destruct Hc2 as [[-> _] | Hc2]; [exact Hdec |]).
      destruct Hc2 as [-> _]. exact Hdec.
    + repeat (destruct Hc as [[-> _] | Hc]; [exact Hdec |]).
      destruct Hc as [-> _]. exact Hdec.
Qed.

Lemma to_uint_nonnil (p : positive) : Pos.to_uint p <> Nil.
Proof.
  intros H.
  pose proof (DecimalPos.Unsigned.of_to p) as Hp.
  rewrite H in Hp. discriminate.
Qed.

(** [BigInt(b.toString())] is [b]. *)
Lemma StringToBigInt_toString (z : Z) :
  JS.StringToBigInt (JS.toString z) = Some z.
Proof.
  unfold JS.toString.
  destruct z as [| p | p].
  - reflexivity.
  - simpl Z.to_int. simpl NilEmpty.string_of_int.
    rewrite (StringToBigInt_digits _ (Pos.to_uint p)).
    + f_equal. exact (DecimalZ.of_to (Z.pos p)).
    + apply NilEmpty.usu.
    + apply to_uint_nonnil.
  - simpl Z.to_int. simpl NilEmpty.string_of_int.
    set (s := NilEmpty.string_of_uint (Pos.to_uint p)).
    assert (Hs : NilEmpty.uint_of_string s = Some (Pos.to_uint p))
      by apply NilEmpty.usu.
    assert (Hne : s <> EmptyString).
    { intros E. rewrite E in Hs. simpl in Hs.
      injection Hs as Hs. symmetry in Hs. exact (to_uint_nonnil p Hs). }
    unfold JS.StringToBigInt, JS.trim.
    change (JS.trimStart (String "-" s)) with (String "-" s).
    assert (Ht : JS.trimEnd (String "-" s) = String "-" s).
    { simpl. rewrite (trimEnd_digits s _ Hs).
      destruct s; [congruence | reflexivity]. }
    rewrite Ht.
    change (option_map Z.opp (JS.decimalDigits s) = Some (Z.neg p)).
    unfold JS.decimalDigits. rewrite Hs.
    pose proof (to_uint_nonnil p) as Hnil.
    pose proof (DecimalZ.of_to (Z.neg p)) as Hz. simpl in Hz.
    destruct (Pos.to_uint p); try congruence; simpl; f_equal; exact Hz.
Qed.

Lemma toString_inj (a b : Z) : JS.toString a = JS.toString b -> a = b.
Proof.
  intros H.
  pose proof (StringToBigInt_toString a) as Ha.
  rewrite H, StringToBigInt_toString in Ha. congruence.
Qed.

End DecimalStrings.

(** ** One call of [getId()] *)

Section OneCall.

(** The readings up to the first one past [last], if there is one. *)
Lemma first_reading_past (last : Z) (readings : list Z) :
  Forall (fun r => r <= last) readings \/
  exists spun next rest,
    readings = spun ++ next :: rest /\
    Forall (fun r => r <= last) spun /\ last < next.
Proof.
  induction readings as [| r readings IH].
  - left. constructor.
  - destruct (Z_le_gt_dec r last) as [Hle | Hgt].
    + destruct IH as [Hall | (spun & next & rest & -> & Hspun & Hnext)].
      * left. constructor; assumption.
      * right. exists (r :: spun), next, rest.
        repeat split; [constructor; assumption | assumption].
    + right. exists [], r, readings. repeat split; [constructor | lia].
Qed.

Lemma waitNextMillis_while_found (last : Z) (spun : list Z) :
  forall timestamp next rest,
    timestamp <= last -> Forall (fun r => r <= last) spun -> last < next ->
    waitNextMillis_while last timestamp (spun ++ next :: rest)
    = (Normal next, rest).
Proof.
  induction spun as [| r spun IH]; intros timestamp next rest Hts Hspun Hnext.
  - simpl.
    replace (timestamp <=? last) with true by (symmetry; apply Z.leb_le; lia).
    destruct rest; simpl;
      replace (next <=? last) with false
        by (symmetry; apply Z.leb_gt; lia); reflexivity.
  - inversion Hspun as [| ? ? Hr Hspun']; subst.
    simpl.
    replace (timestamp <=? last) with true by (symmetry; apply Z.leb_le; lia).
    apply IH; assumption.
Qed.

Lemma waitNextMillis_while_spinning (last : Z) (spun : list Z) :
  forall timestamp,
    timestamp <= last -> Forall (fun r => r <= last) spun ->
    waitNextMillis_while last timestamp spun = (Pending, []).
Proof.
  induction spun as [| r spun IH]; intros timestamp Hts Hspun; simpl;
    replace (timestamp <=? last) with true by (symmetry; apply Z.leb_le; lia).
  - reflexivity.
  - inversion Hspun; subst. apply IH; assumption.
Qed.

Lemma waitNextMillis_while_now (last timestamp : Z) (readings : list Z) :
  last < timestamp ->
  waitNextMillis_while last timestamp readings = (Normal timestamp, readings).
Proof.
  intros H. destruct readings; simpl;
    replace (timestamp <=? last) with false by (symmetry; apply Z.leb_gt; lia);
    reflexivity.
Qed.

(** [waitNextMillis] returns the first reading past [last] and leaves the
    clock after it. *)
Lemma waitNextMillis_found (g : t) (last : Z) (spun : list Z) (next : Z) (rest : list Z) :
  Forall (fun r => r <= last) spun -> last < next ->
  waitNextMillis last (mkMachine g (spun ++ next :: rest))
  = (Normal next, mkMachine g rest).
Proof.
  intros Hspun Hnext. unfold waitNextMillis, bind, getCurrentTimestamp.
  destruct spun as [| r spun]; simpl.
  - rewrite waitNextMillis_while_now by assumption. reflexivity.
  - inversion Hspun; subst.
    rewrite waitNextMillis_while_found by assumption. reflexivity.
Qed.

Lemma waitNextMillis_spinning (g : t) (last : Z) (spun : list Z) :
  Forall (fun r => r <= last) spun ->
  waitNextMillis last (mkMachine g spun) = (Pending, mkMachine g []).
Proof.
  intros Hspun. unfold waitNextMillis, bind, getCurrentTimestamp.
  destruct spun as [| r spun]; simpl.
  - reflexivity.
  - inversion Hspun; subst.
    rewrite waitNextMillis_while_spinning by assumption. reflexivity.
Qed.

Ltac getId_unfold :=
  unfold getId, bind, getCurrentTimestamp, get_this, set_sequence,
    set_lastTimestamp, throw, ret; simpl.

Ltac decide_test :=
  match goal with
  | |- context [?a <? ?b] =>
      first [ replace (a <? b) with true by (symmetry; apply Z.ltb_lt; lia)
            | replace (a <? b) with false by (symmetry; apply Z.ltb_ge; lia) ]
  | |- context [?a =? ?b] =>
      first [ replace (a =? b) with true by (symmetry; apply Z.eqb_eq; lia)
            | replace (a =? b) with false by (symmetry; apply Z.eqb_neq; lia) ]
  end.

(** The guard at the head of [getId]. *)
Lemma getId_backwards (g : t) (now : Z) (rest : list Z) :
  now < lastTimestamp g ->
  getId (mkMachine g (now :: rest))
  = (Throw (clock_moved_backwards (JS.sub (lastTimestamp g) now)), mkMachine g rest).
Proof.
  intros Hlt. getId_unfold. decide_test. reflexivity.
Qed.

(** A reading past [lastTimestamp]: the sequence starts again at 0. *)
Lemma getId_new_millisecond (g : t) (now : Z) (rest : list Z) :
  lastTimestamp g < now ->
  getId (mkMachine g (now :: rest))
  = (Normal (JS.toString (getId_id (with_state g 0 now) now)),
     mkMachine (with_state g 0 now) rest).
Proof.
  intros Hgt. getId_unfold. repeat decide_test. reflexivity.
Qed.

(** The reading of the previous call, and room left in the sequence. *)
Lemma getId_same_millisecond (g : t) (now : Z) (rest : list Z) :
  now = lastTimestamp g -> 0 <= sequence g < 4095 ->
  getId (mkMachine g (now :: rest))
  = (Normal (JS.toString (getId_id (with_state g (sequence g + 1) now) now)),
     mkMachine (with_state g (sequence g + 1) now) rest).
Proof.
  intros Heq Hs. getId_unfold. repeat decide_test.
  rewrite band_sequence_next by lia. simpl. decide_test. reflexivity.
Qed.

(** The reading of the previous call with the sequence at 4095: the call
    spins past the readings that do not advance and takes the first that
    does. *)
Lemma getId_wrap (g : t) (now : Z) (spun : list Z) (next : Z) (rest : list Z) :
  now = lastTimestamp g -> sequence g = 4095 ->
  Forall (fun r => r <= now) spun -> now < next ->
  getId (mkMachine g (now :: spun ++ next :: rest))
  = (Normal (JS.toString (getId_id (with_state g 0 next) next)),
     mkMachine (with_state g 0 next) rest).
Proof.
  intros Heq Hmax Hspun Hnext. getId_unfold. repeat decide_test.
  rewrite Hmax, band_sequence_wrap. simpl.
  rewrite waitNextMillis_found by assumption. reflexivity.
Qed.

(** The same, on a clock that does not advance: the call does not return,
    and the sequence is already back at 0. *)
Lemma getId_wrap_spinning (g : t) (now : Z) (spun : list Z) :
  now = lastTimestamp g -> sequence g = 4095 ->
  Forall (fun r => r <= now) spun ->
  getId (mkMachine g (now :: spun))
  = (Pending, mkMachine (with_state g 0 (lastTimestamp g)) []).
Proof.
  intros Heq Hmax Hspun. getId_unfold. repeat decide_test.
  rewrite Hmax, band_sequence_wrap. simpl.
  rewrite waitNextMillis_spinning by assumption. reflexivity.
Qed.

(** Every call is one of the steps. *)
Lemma getId_steps (g : t) (readings : list Z) :
  0 <= sequence g <= 4095 ->
  getId_step g readings (fst (getId (mkMachine g readings)))
                        (snd (getId (mkMachine g readings))).
Proof.
  intros Hs. destruct readings as [| now rest].
  - apply step_no_reading.
  - destruct (Z.lt_trichotomy now (lastTimestamp g)) as [Hlt | [Heq | Hgt]].
    + rewrite getId_backwards by assumption. apply step_backwards. assumption.
    + destruct (Z.eq_dec (sequence g) 4095) as [Hmax | Hnot].
      * destruct (first_reading_past now rest)
          as [Hall | (spun & next & rest' & -> & Hspun & Hnext)].
        -- rewrite getId_wrap_spinning by assumption.
           apply step_wrap_spinning; assumption.
        -- rewrite getId_wrap by assumption. apply step_wrap; assumption.
      * rewrite getId_same_millisecond by (try assumption; lia).
        apply step_same_millisecond; [assumption | lia].
    + rewrite getId_new_millisecond by lia.
      apply step_new_millisecond. lia.
Qed.

End OneCall.

(** ** Runs of calls on one instance *)

Section Runs.

(** A call on a receiver and a clock, as the step it takes. *)
Lemma getId_step_of (g : t) (readings : list Z) (r : Completion string) (m' : Machine) :
  0 <= sequence g <= 4095 ->
  getId (mkMachine g readings) = (r, m') ->
  getId_step g readings r m'.
Proof.
  intros Hs E. pose proof (getId_steps g readings Hs) as H.
  rewrite E in H. exact H.
Qed.

Lemma with_state_wf (g : t) (s ts : Z) :
  wf g -> 0 <= s <= 4095 -> wf (with_state g s ts).
Proof. intros (Hw & Hp & _) Hs. repeat split; simpl; lia. Qed.

Lemma with_state_same (g : t) : with_state g (sequence g) (lastTimestamp g) = g.
Proof. destruct g. reflexivity. Qed.

(** The constructor establishes the ranges. *)
Lemma constructor_wf (options : option SnowflakeOptions.t) (g : t) :
  constructor options = Normal g ->
  wf g /\ sequence g = 0 /\ lastTimestamp g = -1.
Proof.
  unfold constructor.
  set (w := nullish _ 1). set (p := nullish _ 1).
  change MAX_WORKER_ID with 31. change MAX_PROCESS_ID with 31.
  destruct (Z.ltb_spec w 0); [discriminate |].
  destruct (Z.gtb_spec w 31); [discriminate |].
  destruct (Z.ltb_spec p 0); [discriminate |].
  destruct (Z.gtb_spec p 31); [discriminate |].
  simpl. intros [= <-]. repeat split; simpl; lia.
Qed.

(** Once the clock has nothing left, no call returns. *)
Lemma calls_no_readings (n : nat) :
  forall g, returned (fst (calls n (mkMachine g []))) = [].
Proof.
  induction n as [| n IH]; intros g; [reflexivity |].
  simpl. change (getId (mkMachine g [])) with (@Pending string, mkMachine g []).
  specialize (IH g). destruct (calls n (mkMachine g [])) as [rs m2].
  exact IH.
Qed.

(** A call that returns: the receiver keeps its identity, its pair
    (lastTimestamp, sequence) goes up, the id is built from the new pair,
    and the new [lastTimestamp] is one of the readings taken. *)
Lemma getId_step_Normal (g : t) (readings : list Z) (id : string) (m' : Machine) :
  wf g ->
  getId_step g readings (Normal id) m' ->
  exists s ts used,
    m' = mkMachine (with_state g s ts) (clock m') /\
    0 <= s <= 4095 /\
    lex_lt (lastTimestamp g, sequence g) (ts, s) /\
    id = JS.toString (getId_id (with_state g s ts) ts) /\
    In ts readings /\
    readings = used ++ clock m'.
Proof.
  intros (_ & _ & Hs) Hstep.
  inversion Hstep as
    [ | | now rest Hnew | now rest Hsame Hroom
      | now spun next rest Hsame Hmax Hspun Hnext | ]; subst.
  - exists 0, now, [now].
    split; [reflexivity |]. split; [lia |].
    split; [left; simpl; lia |]. split; [reflexivity |].
    split; [left; reflexivity | reflexivity].
  - exists (sequence g + 1), (lastTimestamp g), [lastTimestamp g].
    split; [reflexivity |]. split; [lia |].
    split; [right; simpl; lia |]. split; [reflexivity |].
    split; [left; reflexivity | reflexivity].
  - exists 0, next, (lastTimestamp g :: spun ++ [next]).
    split; [reflexivity |]. split; [lia |].
    split; [left; simpl; lia |]. split; [reflexivity |].
    split.
    + right. apply in_or_app. right. left. reflexivity.
    + cbn [clock]. rewrite <- app_comm_cons, <- app_assoc. reflexivity.
Qed.

(** A call that does not return either leaves the receiver as it was or
    has used up the clock. *)
Lemma getId_step_other (g : t) (readings : list Z) (r : Completion string) (m' : Machine) :
  getId_step g readings r m' ->
  (forall id, r <> Normal id) ->
  (this m' = g /\ exists used, readings = used ++ clock m') \/ clock m' = [].
Proof.
  intros Hstep Hr.
  inversion Hstep as
    [ | now rest Hback | now rest Hnew | now rest Hsame Hroom
      | now spun next rest Hsame Hmax Hspun Hnext | now spun Hsame Hmax Hspun ];
    subst; simpl.
  - right. reflexivity.
  - left. split; [reflexivity | exists [now]; reflexivity].
  - exfalso. exact (Hr _ eq_refl).
  - exfalso. exact (Hr _ eq_refl).
  - exfalso. exact (Hr _ eq_refl).
  - right. reflexivity.
Qed.

(** The ids of a run, as numbers, each built by [getId] from a reading of
    the clock.  While every reading less the epoch is an integer a double
    holds, each is larger than the one before and than the id of the state
    the run starts from; they are within 63 bits when the clock stays in
    the 41-bit window after the epoch. *)
Lemma calls_returned (n : nat) :
  forall g readings,
    wf g ->
    exists zs,
      returned (fst (calls n (mkMachine g readings))) = map JS.toString zs /\
      (Forall (fun now => Z.abs (now - epoch g) <= MAX_SAFE_INTEGER) readings ->
       StronglySorted Z.lt zs /\
       Forall (fun z => getId_id g (lastTimestamp g) < z) zs) /\
      Forall (fun z => exists s ts,
                  0 <= s <= 4095 /\ In ts readings /\
                  z = getId_id (with_state g s ts) ts) zs /\
      (Forall (fun now => epoch g <= now <= epoch g + 2 ^ 41 - 1) readings ->
       Forall (fun z => 0 <= z < 2 ^ 63) zs).
Proof.
  induction n as [| n IH]; intros g readings Hg.
  - exists []. repeat split; constructor.
  - cbn [calls].
    destruct (getId (mkMachine g readings)) as [r m1] eqn:E.
    apply getId_step_of in E; [| apply Hg].
    assert (Hcases : (exists id, r = Normal id) \/ (forall id, r <> Normal id)).
    { destruct r; [left; eexists; reflexivity | right; discriminate ..]. }
    destruct Hcases as [(id & ->) | Hr].
    + destruct (getId_step_Normal g readings id m1 Hg E)
        as (s & ts & used & -> & Hs & Hlex & -> & Hin & Hused).
      set (g1 := with_state g s ts) in *.
      assert (Hg1 : wf g1) by (apply with_state_wf; assumption).
      destruct (IH g1 (clock m1) Hg1) as (zs & Hzs & Hsorted & Hshape & Hrange).
      exists (getId_id g1 ts :: zs).
      destruct (calls n (mkMachine g1 (clock m1))) as [rs m2].
      cbn [fst returned map] in *.
      split; [rewrite Hzs; reflexivity |].
      split; [| split].
      * intros Hsafe.
        assert (Hup : getId_id g (lastTimestamp g) < getId_id g1 ts).
        { apply getId_id_lex; try reflexivity; try assumption.
          rewrite Forall_forall in Hsafe. exact (Hsafe ts Hin). }
        rewrite Hused in Hsafe. apply Forall_app in Hsafe.
        destruct (Hsorted (proj2 Hsafe)) as (Hsorted' & Hlow).
        assert (Hlow' : Forall (fun z => getId_id g1 ts < z) zs) by exact Hlow.
        split; [constructor; assumption |].
        constructor; [assumption |].
        eapply Forall_impl; [| exact Hlow']. cbn beta. intros z Hz. lia.
      * constructor.
        -- exists s, ts. split; [assumption |]. split; [assumption | reflexivity].
        -- eapply Forall_impl; [| exact Hshape]. cbn beta.
           intros z (s' & ts' & Hs' & Hin' & Hz).
           exists s', ts'. split; [assumption |]. split; [| exact Hz].
           rewrite Hused. apply in_or_app. right. assumption.
      * intros Hwindow. constructor.
        -- apply getId_id_range; [assumption |].
           rewrite Forall_forall in Hwindow. exact (Hwindow ts Hin).
        -- apply Hrange. rewrite Hused in Hwindow.
           apply Forall_app in Hwindow. apply Hwindow.
    + assert (Hsame : returned (fst (let (rs, m2) := calls n m1 in (r :: rs, m2)))
                      = returned (fst (calls n m1))).
      { destruct (calls n m1) as [rs m2]. cbn [fst].
        destruct r as [id | e |]; [exfalso; exact (Hr id eq_refl) | reflexivity ..]. }
      rewrite Hsame.
      destruct (getId_step_other g readings r m1 E Hr)
        as [(Hthis & used & Hused) | Hempty].
      * destruct m1 as [g1 rest]. cbn [this clock] in *. subst g1.
        destruct (IH g rest Hg) as (zs & Hzs & Hsorted & Hshape & Hrange).
        exists zs. split; [assumption |]. split; [| split].
        -- intros Hsafe. apply Hsorted. rewrite Hused in Hsafe.
           apply Forall_app in Hsafe. apply Hsafe.
        -- eapply Forall_impl; [| exact Hshape]. cbn beta.
           intros z (s' & ts' & Hs' & Hin' & Hz).
           exists s', ts'. split; [assumption |]. split; [| exact Hz].
           rewrite Hused. apply in_or_app. right. assumption.
        -- intros Hwindow. apply Hrange. rewrite Hused in Hwindow.
           apply Forall_app in Hwindow. apply Hwindow.
      * destruct m1 as [g1 rest]. cbn [clock] in Hempty. subst rest.
        exists []. rewrite calls_no_readings.
        repeat split; constructor.
Qed.

(** In the 41-bit window after the epoch the subtraction is exact. *)
Lemma window_safe (e : Z) (readings : list Z) :
  Forall (fun now => e <= now <= e + 2 ^ 41 - 1) readings ->
  Forall (fun now => Z.abs (now - e) <= MAX_SAFE_INTEGER) readings.
Proof.
  apply Forall_impl. intros now Hnow.
  unfold MAX_SAFE_INTEGER. change (2 ^ 53 - 1) with 9007199254740991.
  change (2 ^ 41) with 2199023255552 in Hnow. lia.
Qed.

End Runs.

(** ** Progress on a clock that does not go back *)

Section Progress.

Lemma StronglySorted_app_inv (xs ys : list Z) :
  StronglySorted Z.le (xs ++ ys) -> StronglySorted Z.le ys.
Proof.
  induction xs as [| x xs IH]; simpl; intros H; [assumption |].
  apply StronglySorted_inv in H. apply IH, H.
Qed.

(** A call that does not throw leaves the clock non-decreasing and not
    below the new [lastTimestamp]. *)
Lemma getId_step_clock (g : t) (readings : list Z) (r : Completion string) (m' : Machine) :
  getId_step g readings r m' ->
  StronglySorted Z.le readings ->
  Forall (fun now => lastTimestamp g <= now) readings ->
  (forall e, r <> Throw e) /\
  StronglySorted Z.le (clock m') /\
  Forall (fun now => lastTimestamp (this m') <= now) (clock m').
Proof.
  intros Hstep Hsorted Hlow.
  destruct Hstep as
    [ | now rest Hback | now rest Hnew | now rest Hsame Hroom
      | now spun next rest Hsame Hmax Hspun Hnext | now spun Hsame Hmax Hspun ];
    simpl.
  - repeat split; [discriminate | constructor | constructor].
  - inversion Hlow; subst. lia.
  - apply StronglySorted_inv in Hsorted. destruct Hsorted as [Hs Hhd].
    repeat split; [discriminate | assumption | assumption].
  - apply StronglySorted_inv in Hsorted. destruct Hsorted as [Hs Hhd].
    repeat split; [discriminate | assumption | assumption].
  - apply StronglySorted_inv in Hsorted. destruct Hsorted as [Hs _].
    apply StronglySorted_app_inv in Hs.
    apply StronglySorted_inv in Hs. destruct Hs as [Hs Hhd].
    repeat split; [discriminate | assumption | assumption].
  - repeat split; [discriminate | constructor | constructor].
Qed.

(** On a non-decreasing clock that starts at or after [lastTimestamp], no
    call of a run throws. *)
Lemma calls_never_throw (n : nat) :
  forall g readings,
    0 <= sequence g <= 4095 ->
    StronglySorted Z.le readings ->
    Forall (fun now => lastTimestamp g <= now) readings ->
    forall e, ~ In (Throw e) (fst (calls n (mkMachine g readings))).
Proof.
  induction n as [| n IH]; intros g readings Hs Hsorted Hlow e; simpl.
  - intros [].
  - destruct (getId (mkMachine g readings)) as [r [g1 rest]] eqn:E.
    pose proof (getId_step_of g readings r _ Hs E) as Hstep.
    destruct (getId_step_clock _ _ _ _ Hstep Hsorted Hlow) as (Hr & Hs1 & Hl1).
    assert (Hseq : 0 <= sequence g1 <= 4095).
    { inversion Hstep; subst; simpl; lia. }
    specialize (IH g1 rest Hseq Hs1 Hl1 e).
    destruct (calls n (mkMachine g1 rest)) as [rs m2]. simpl in *.
    intros [Heq | Hin]; [exact (Hr e Heq) | exact (IH Hin)].
Qed.

(** A call is still running only when it has used up the readings. *)
Lemma getId_Pending_clock (g : t) (readings : list Z) (m' : Machine) :
  0 <= sequence g <= 4095 ->
  getId (mkMachine g readings) = (Pending, m') -> clock m' = [].
Proof.
  intros Hs E. apply getId_step_of in E; [| assumption].
  inversion E; reflexivity.
Qed.

End Progress.

(** ** Lists in strict order *)

Section StrictOrder.

Lemma StronglySorted_nth_error (zs : list Z) :
  StronglySorted Z.lt zs ->
  forall i j a b,
    (i < j)%nat -> nth_error zs i = Some a -> nth_error zs j = Some b -> a < b.
Proof.
  induction 1 as [| z zs Hsorted IH Hhd]; intros i j a b Hij Ha Hb.
  - destruct i; discriminate.
  - destruct j as [| j]; [lia |].
    simpl in Hb. destruct i as [| i].
    + simpl in Ha. injection Ha as <-.
      rewrite Forall_forall in Hhd. apply Hhd.
      eapply nth_error_In. exact Hb.
    + simpl in Ha. apply (IH i j); [lia | assumption | assumption].
Qed.

Lemma StronglySorted_NoDup (zs : list Z) : StronglySorted Z.lt zs -> NoDup zs.
Proof.
  induction 1 as [| z zs Hsorted IH Hhd]; constructor; [| assumption].
  intros Hin. rewrite Forall_forall in Hhd. specialize (Hhd z Hin). lia.
Qed.

Lemma NoDup_map_toString (zs : list Z) : NoDup zs -> NoDup (map JS.toString zs).
Proof.
  induction 1 as [| z zs Hnotin Hnodup IH]; simpl; constructor; [| assumption].
  intros Hin. apply in_map_iff in Hin. destruct Hin as (z' & Heq & Hin).
  apply toString_inj in Heq. subst. contradiction.
Qed.

Lemma map_StringToBigInt_toString (zs : list Z) :
  map JS.StringToBigInt (map JS.toString zs) = map Some zs.
Proof.
  induction zs as [| z zs IH]; simpl; [reflexivity |].
  rewrite StringToBigInt_toString, IH. reflexivity.
Qed.

Lemma StronglySorted_filter (f : Z -> bool) (zs : list Z) :
  StronglySorted Z.lt zs -> StronglySorted Z.lt (filter f zs).
Proof.
  induction 1 as [| z zs Hsorted IH Hhd]; simpl; [constructor |].
  destruct (f z); [| assumption].
  constructor; [assumption |].
  rewrite Forall_forall in *. intros x Hx.
  apply filter_In in Hx. apply Hhd, Hx.
Qed.

(** A strictly increasing list of integers between [lo] and [hi] has at most
    hi - lo + 1 elements. *)
Lemma StronglySorted_length_bound (zs : list Z) :
  StronglySorted Z.lt zs ->
  forall lo hi,
    Forall (fun z => lo <= z <= hi) zs ->
    Z.of_nat (List.length zs) <= Z.max 0 (hi - lo + 1).
Proof.
  induction 1 as [| z zs Hsorted IH Hhd]; intros lo hi Hall.
  - simpl. lia.
  - inversion Hall as [| ? ? Hz Hrest]; subst.
    assert (Hnext : Forall (fun x => z + 1 <= x <= hi) zs).
    { rewrite Forall_forall in *. intros x Hx.
      specialize (Hhd x Hx). specialize (Hrest x Hx). lia. }
    specialize (IH (z + 1) hi Hnext).
    cbn [List.length]. lia.
Qed.

End StrictOrder.

(** ** Monotonicity and uniqueness of the ids of one instance *)

(** C1. On one instance (a receiver whose worker id, process id and sequence
    are in the ranges the constructor and [getId] keep them in), take any
    number of successive calls of [getId()].  If the readings of the clock
    are non-decreasing and each lies between the epoch and
    epoch + 2^41 - 1, then the ids returned, read back as integers, are
    unsigned 64-bit values, the i-th is strictly below the j-th whenever
    i < j, and no id is returned twice. *)
Theorem getId_ids_strictly_increasing (g : t) (readings : list Z) (n : nat) :
  wf g ->
  Sorted Z.le readings ->
  Forall (fun now => epoch g <= now <= epoch g + 2 ^ 41 - 1) readings ->
  let ids := returned (fst (calls n (mkMachine g readings))) in
  exists values : list Z,
    map JS.StringToBigInt ids = map Some values /\
    Forall (fun v => 0 <= v < 2 ^ 64) values /\
    (forall i j vi vj,
        (i < j)%nat ->
        nth_error values i = Some vi -> nth_error values j = Some vj ->
        vi < vj) /\
    NoDup ids.
Proof.
  intros Hg _ Hwindow ids.
  destruct (calls_returned n g readings Hg) as (zs & Hids & Hsorted & _ & Hrange).
  destruct (Hsorted (window_safe _ _ Hwindow)) as (Hsorted' & _).
  exists zs. subst ids. rewrite Hids. repeat split.
  - apply map_StringToBigInt_toString.
  - eapply Forall_impl; [| exact (Hrange Hwindow)].
    simpl. intros z Hz. split; [lia |].
    apply Z.lt_trans with (2 ^ 63); [lia | reflexivity].
  - apply StronglySorted_nth_error. assumption.
  - apply NoDup_map_toString, StronglySorted_NoDup. assumption.
Qed.

(** Six calls on a new instance with epoch 1000 while the clock reads
    1000, 1000, 1000, 1001, 1001, 1005: six ids, in strict order. *)
Lemma getId_ids_strictly_increasing_witness :
  returned (fst (calls 6 (mkMachine (mk 1 1 1000 0 (-1))
                                    [1000; 1000; 1000; 1001; 1001; 1005])))
  = ["135168"; "135169"; "135170"; "4329472"; "4329473"; "21106688"] /\
  exists values : list Z,
    map JS.StringToBigInt
        (returned (fst (calls 6 (mkMachine (mk 1 1 1000 0 (-1))
                                           [1000; 1000; 1000; 1001; 1001; 1005]))))
    = map Some values /\
    Forall (fun v => 0 <= v < 2 ^ 64) values /\
    (forall i j vi vj,
        (i < j)%nat ->
        nth_error values i = Some vi -> nth_error values j = Some vj ->
        vi < vj) /\
    NoDup (returned (fst (calls 6 (mkMachine (mk 1 1 1000 0 (-1))
                                             [1000; 1000; 1000; 1001; 1001; 1005])))).
Proof.
  split; [reflexivity |].
  apply (getId_ids_strictly_increasing (mk 1 1 1000 0 (-1))
           [1000; 1000; 1000; 1001; 1001; 1005] 6).
  - repeat split; simpl; lia.
  - repeat constructor; lia.
  - repeat constructor; simpl; lia.
Defined.

(** ** Decoding *)

Section Decoding.

(** An integer of magnitude at most [MAX_SAFE_INTEGER] is a double. *)
Lemma Number_safe (b : Z) : Z.abs b <= MAX_SAFE_INTEGER -> JS.Number b = JS.Finite b.
Proof.
  intros Hb. unfold JS.Number, MAX_SAFE_INTEGER in *.
  replace (Z.abs b <? 2 ^ 53) with true by (symmetry; apply Z.ltb_lt; lia).
  reflexivity.
Qed.

(** What [deconstruct] returns on a string that [BigInt] accepts, and that
    it leaves the machine as it found it. *)
Lemma deconstruct_parsed (id : string) (snowflakeId : Z) (m : Machine) :
  JS.StringToBigInt id = Some snowflakeId ->
  deconstruct id m =
  (Normal
     (Parts.mk
        (JS.Number (Z.shiftr snowflakeId 22 + epoch (this m)))
        (JS.Number (Z.land (Z.shiftr snowflakeId 17) 31))
        (JS.Number (Z.land (Z.shiftr snowflakeId 12) 31))
        (JS.Number (Z.land snowflakeId 4095))
        (JS.Date_new (JS.Number (Z.shiftr snowflakeId 22 + epoch (this m))))),
   m).
Proof.
  intros H. unfold deconstruct, bind, get_this, ret. rewrite H. reflexivity.
Qed.

Lemma deconstruct_unparsed (id : string) (m : Machine) :
  JS.StringToBigInt id = None ->
  deconstruct id m = (Throw (SyntaxError id), m).
Proof.
  intros H. unfold deconstruct, bind, get_this, throw. rewrite H. reflexivity.
Qed.

(** A 5-bit or 12-bit field is a double. *)
Lemma Number_field (x n : Z) :
  0 <= n <= 12 -> JS.Number (Z.land x (2 ^ n - 1)) = JS.Finite (Z.land x (2 ^ n - 1)).
Proof.
  intros Hn. apply Number_safe. rewrite land_mask by lia.
  assert (0 <= x mod 2 ^ n < 2 ^ n) by (apply Z.mod_pos_bound; lia).
  assert (2 ^ n <= 2 ^ 12) by (apply Z.pow_le_mono_r; lia).
  unfold MAX_SAFE_INTEGER. change (2 ^ 12) with 4096 in *.
  change (2 ^ 53 - 1) with 9007199254740991. lia.
Qed.

End Decoding.

(** An id returned by [getId()], given back to [deconstruct] on the same
    instance, is read as the fields the call left in the receiver, while
    the timestamp and the timestamp less the epoch are integers a double
    holds. *)
Lemma getId_then_deconstruct (g : t) (readings : list Z) (id : string) (m' : Machine) :
  wf g ->
  getId (mkMachine g readings) = (Normal id, m') ->
  Z.abs (lastTimestamp (this m')) <= MAX_SAFE_INTEGER ->
  Z.abs (lastTimestamp (this m') - epoch g) <= MAX_SAFE_INTEGER ->
  deconstruct id m'
  = (Normal
       (Parts.mk (JS.Finite (lastTimestamp (this m')))
                 (JS.Finite (workerId g)) (JS.Finite (processId g))
                 (JS.Finite (sequence (this m')))
                 (JS.Date_new (JS.Finite (lastTimestamp (this m'))))),
     m').
Proof.
  intros Hg E Hsafe Hexact.
  assert (Hs : 0 <= sequence g <= 4095) by apply Hg.
  apply getId_step_of in E; [| assumption].
  assert (Hid : exists s ts,
    0 <= s <= 4095 /\ this m' = with_state g s ts /\
    id = JS.toString (getId_id (with_state g s ts) ts)).
  { inversion E; subst; simpl;
      [ exists 0, now | exists (sequence g + 1), (lastTimestamp g)
      | exists 0, next ];
      (split; [lia | split; reflexivity]). }
  destruct Hid as (s & ts & Hs' & Hthis & ->). clear E.
  destruct m' as [g' rest']. simpl in Hthis. subst g'. simpl in Hsafe, Hexact |- *.
  rewrite (deconstruct_parsed _ _ _ (StringToBigInt_toString _)).
  assert (Hwf : wf (with_state g s ts)) by (apply with_state_wf; assumption).
  rewrite getId_id_sum_safe by assumption.
  unfold with_state.
  cbn [this SnowflakeGenerator.workerId SnowflakeGenerator.processId
       SnowflakeGenerator.sequence SnowflakeGenerator.epoch
       SnowflakeGenerator.lastTimestamp].
  destruct Hg as (Hw & Hp & _).
  destruct (fields_of_sum (ts - epoch g) _ _ _ Hw Hp Hs')
    as (Ht & Hfw & Hfp & Hfs).
  rewrite Ht, Hfw, Hfp, Hfs.
  replace (ts - epoch g + epoch g) with ts by lia.
  unfold MAX_SAFE_INTEGER in Hsafe.
  rewrite !Number_safe
    by (unfold MAX_SAFE_INTEGER; change (2 ^ 53 - 1) with 9007199254740991 in *; lia).
  reflexivity.
Qed.

(** C2. Round trip.  With worker id and process id in [0, 31], sequence in
    [0, 4095] and a timestamp with 0 <= timestamp - epoch < 2^41 (a clock
    reading, hence an integer a number holds exactly: magnitude at most
    [MAX_SAFE_INTEGER]), the id that [getId] builds from them, given as its
    decimal string to [deconstruct] on an instance with the same epoch,
    comes back as exactly that timestamp, worker id, process id and
    sequence; the decoder's machine is untouched. *)
Theorem deconstruct_getId_round_trip
        (workerId processId sequence epoch timestamp lastTimestamp : Z)
        (decoder : t) (readings : list Z) :
  0 <= workerId <= 31 ->
  0 <= processId <= 31 ->
  0 <= sequence <= 4095 ->
  0 <= timestamp - epoch < 2 ^ 41 ->
  Z.abs timestamp <= MAX_SAFE_INTEGER ->
  SnowflakeGenerator.epoch decoder = epoch ->
  deconstruct
    (JS.toString
       (getId_id (mk workerId processId epoch sequence lastTimestamp) timestamp))
    (mkMachine decoder readings)
  = (Normal
       (Parts.mk (JS.Finite timestamp) (JS.Finite workerId)
                 (JS.Finite processId) (JS.Finite sequence)
                 (JS.Date_new (JS.Finite timestamp))),
     mkMachine decoder readings).
Proof.
  intros Hw Hp Hs Hts Hsafe He.
  rewrite (deconstruct_parsed _ _ _ (StringToBigInt_toString _)).
  rewrite getId_id_sum_safe;
    [| repeat split; simpl; lia
     | simpl; unfold MAX_SAFE_INTEGER; change (2 ^ 53 - 1) with 9007199254740991;
       change (2 ^ 41) with 2199023255552 in Hts; lia].
  simpl this. cbn [SnowflakeGenerator.workerId SnowflakeGenerator.processId
                   SnowflakeGenerator.sequence SnowflakeGenerator.epoch].
  destruct (fields_of_sum (timestamp - epoch) workerId processId sequence Hw Hp Hs)
    as (Ht & Hfw & Hfp & Hfs).
  rewrite Ht, Hfw, Hfp, Hfs, He.
  replace (timestamp - epoch + epoch) with timestamp by lia.
  unfold MAX_SAFE_INTEGER in Hsafe.
  rewrite !Number_safe by (unfold MAX_SAFE_INTEGER; lia).
  reflexivity.
Qed.

(** The fixed values: epoch 1609459200000, worker 5, process 10, sequence 0,
    timestamp epoch + 1000. *)
Lemma deconstruct_getId_round_trip_witness :
  deconstruct
    (JS.toString (getId_id (mk 5 10 1609459200000 0 (-1)) (1609459200000 + 1000)))
    (mkMachine (mk 5 10 1609459200000 0 (-1)) [])
  = (Normal
       (Parts.mk (JS.Finite (1609459200000 + 1000)) (JS.Finite 5)
                 (JS.Finite 10) (JS.Finite 0)
                 (JS.Date_new (JS.Finite (1609459200000 + 1000)))),
     mkMachine (mk 5 10 1609459200000 0 (-1)) []).
Proof.
  apply (deconstruct_getId_round_trip 5 10 0 1609459200000
           (1609459200000 + 1000) (-1)); simpl; try lia; try reflexivity.
  unfold MAX_SAFE_INTEGER. simpl. lia.
Defined.

(** ** Construction *)

(** The test of the two [if] of the constructor. *)
Lemma outside_true (x : Z) : x < 0 \/ 31 < x -> (x <? 0) || (x >? 31) = true.
Proof.
  intros H. apply orb_true_iff. rewrite Z.gtb_ltb.
  destruct H; [left | right]; apply Z.ltb_lt; assumption.
Qed.

Lemma outside_false (x : Z) : 0 <= x <= 31 -> (x <? 0) || (x >? 31) = false.
Proof.
  intros H. apply orb_false_iff. rewrite Z.gtb_ltb.
  split; apply Z.ltb_ge; lia.
Qed.

(** The epoch of a new instance: a supplied epoch other than zero, else the
    default. *)
Lemma constructor_epoch (options : option SnowflakeOptions.t) (g : t) :
  constructor options = Normal g ->
  epoch g = match options?.SnowflakeOptions.epoch with
            | Some e => if e =? 0 then 1733011200000 else e
            | None => 1733011200000
            end.
Proof.
  unfold constructor.
  destruct (_ || _); [discriminate |].
  destruct (_ || _); [discriminate |].
  intros [= <-]. reflexivity.
Qed.

(** C3. An epoch of 0 passed to the constructor is not the epoch of the
    instance: [options?.epoch || 1733011200000] takes the default for it, so
    the instance encodes and decodes with 1733011200000, where the worker id
    and the process id, read with [??], keep a supplied 0. *)
Theorem constructor_epoch_zero_replaced :
  constructor (Some (SnowflakeOptions.mk (Some 0) (Some 0) (Some 0)))
  = Normal (mk 0 0 1733011200000 0 (-1)).
Proof. reflexivity. Qed.

(** On integers the constructor throws exactly when the worker id or the
    process id in force (the one supplied, or 1) is outside [0, 31]; the
    message names the worker id when that one is outside, the process id
    otherwise.  When it does not throw, the instance has these two ids,
    sequence 0 and lastTimestamp -1.  So worker ids 32 and -1 are refused,
    as are process ids 32 and -1, and worker ids 0 and 31 are accepted. *)
Lemma constructor_validation (options : option SnowflakeOptions.t) :
  let w := nullish (options?.SnowflakeOptions.workerId) 1 in
  let p := nullish (options?.SnowflakeOptions.processId) 1 in
  let e := logical_or (options?.SnowflakeOptions.epoch) 1733011200000 in
  ((exists err, constructor options = Throw err) <->
   (w < 0 \/ 31 < w) \/ (p < 0 \/ 31 < p)) /\
  (w < 0 \/ 31 < w ->
   constructor options = Throw (Error "Worker ID must be between 0 and 31")) /\
  (0 <= w <= 31 -> p < 0 \/ 31 < p ->
   constructor options = Throw (Error "Process ID must be between 0 and 31")) /\
  (0 <= w <= 31 -> 0 <= p <= 31 ->
   constructor options = Normal (mk w p e 0 (-1))) /\
  (forall p' e',
     constructor (Some (SnowflakeOptions.mk (Some 32) p' e'))
     = Throw (Error "Worker ID must be between 0 and 31") /\
     constructor (Some (SnowflakeOptions.mk (Some (-1)) p' e'))
     = Throw (Error "Worker ID must be between 0 and 31")) /\
  (forall e',
     constructor (Some (SnowflakeOptions.mk (Some 1) (Some 32) e'))
     = Throw (Error "Process ID must be between 0 and 31") /\
     constructor (Some (SnowflakeOptions.mk (Some 1) (Some (-1)) e'))
     = Throw (Error "Process ID must be between 0 and 31")) /\
  (forall e',
     constructor (Some (SnowflakeOptions.mk (Some 0) (Some 1) e'))
     = Normal (mk 0 1 (logical_or e' 1733011200000) 0 (-1)) /\
     constructor (Some (SnowflakeOptions.mk (Some 31) (Some 1) e'))
     = Normal (mk 31 1 (logical_or e' 1733011200000) 0 (-1))).
Proof.
  intros w p e.
  assert (Hworker : w < 0 \/ 31 < w ->
    constructor options = Throw (Error "Worker ID must be between 0 and 31")).
  { intros Hw. unfold constructor. fold w.
    change MAX_WORKER_ID with 31.
    rewrite (outside_true w Hw). reflexivity. }
  assert (Hprocess : 0 <= w <= 31 -> p < 0 \/ 31 < p ->
    constructor options = Throw (Error "Process ID must be between 0 and 31")).
  { intros Hw Hp. unfold constructor. fold w. fold p.
    change MAX_WORKER_ID with 31. change MAX_PROCESS_ID with 31.
    rewrite (outside_false w Hw), (outside_true p Hp). reflexivity. }
  assert (Hvalid : 0 <= w <= 31 -> 0 <= p <= 31 ->
    constructor options = Normal (mk w p e 0 (-1))).
  { intros Hw Hp. unfold constructor. fold w. fold p. fold e.
    change MAX_WORKER_ID with 31. change MAX_PROCESS_ID with 31.
    rewrite (outside_false w Hw), (outside_false p Hp). reflexivity. }
  repeat split; try assumption; try reflexivity.
  - intros (err & Herr).
    destruct (Z_lt_ge_dec w 0) as [Hw0 | Hw0]; [left; left; assumption |].
    destruct (Z_lt_ge_dec 31 w) as [Hw1 | Hw1]; [left; right; assumption |].
    destruct (Z_lt_ge_dec p 0) as [Hp0 | Hp0]; [right; left; assumption |].
    destruct (Z_lt_ge_dec 31 p) as [Hp1 | Hp1]; [right; right; assumption |].
    rewrite Hvalid in Herr by lia. discriminate.
  - intros [Hw | Hp].
    + eexists. apply Hworker. assumption.
    + destruct (Z_lt_ge_dec w 0) as [Hw0 | Hw0];
        [eexists; apply Hworker; left; assumption |].
      destruct (Z_lt_ge_dec 31 w) as [Hw1 | Hw1];
        [eexists; apply Hworker; right; assumption |].
      eexists. apply Hprocess; [lia | assumption].
Qed.

(** On integer ids the constructor for any [number] is the constructor
    above. *)
Lemma Passed_constructor_integers (options : option SnowflakeOptions.t) :
  Passed.constructor (option_map Passed.of_options options)
  = match constructor options with
    | Normal g => Normal (Passed.of_instance g)
    | Throw e => Throw e
    | Pending => Pending
    end.
Proof.
  unfold Passed.constructor, constructor.
  destruct options as [[[w |] [p |] e] |]; cbn;
    repeat match goal with
           | |- context [if ?b then _ else _] => destruct b; cbn
           end; reflexivity.
Qed.

(** What the two tests of the constructor refuse: a number below 0 or above
    31, the infinities among them.  [NaN] is not refused. *)
Definition refused (x : JS.passed) : Prop :=
  match x with
  | JS.Num (JS.Finite z) => z < 0 \/ 31 < z
  | JS.Num JS.PosInfinity => True
  | JS.Num JS.NegInfinity => True
  | JS.NaN => False
  end.

Lemma refused_test (x : JS.passed) :
  JS.lt x 0 || JS.gt x MAX_WORKER_ID = true <-> refused x.
Proof.
  change MAX_WORKER_ID with 31.
  destruct x as [[z | |] |]; cbn [JS.lt JS.gt refused orb].
  - rewrite orb_true_iff, Z.gtb_ltb, !Z.ltb_lt. reflexivity.
  - split; [intros _; exact I | reflexivity].
  - split; [intros _; exact I | reflexivity].
  - split; [discriminate | contradiction].
Qed.

(** The constructor throws exactly when one of the two ids in force is
    refused. *)
Lemma Passed_constructor_throws (options : option Passed.Options) :
  (exists err, Passed.constructor options = Throw err) <->
  refused (Passed.nullish (options?.Passed.options_workerId) 1) \/
  refused (Passed.nullish (options?.Passed.options_processId) 1).
Proof.
  unfold Passed.constructor.
  set (w := Passed.nullish (options?.Passed.options_workerId) 1).
  set (p := Passed.nullish (options?.Passed.options_processId) 1).
  rewrite <- !refused_test. change MAX_PROCESS_ID with MAX_WORKER_ID.
  destruct (JS.lt w 0 || JS.gt w MAX_WORKER_ID) eqn:Hw.
  - split; [intros _; left; reflexivity | intros _; eexists; reflexivity].
  - destruct (JS.lt p 0 || JS.gt p MAX_WORKER_ID) eqn:Hp.
    + split; [intros _; right; reflexivity | intros _; eexists; reflexivity].
    + split; [intros (err & H); discriminate | intros [H | H]; discriminate].
Qed.

(** C7. The constructor does not refuse every id outside [0, 31]: a worker
    id or a process id of [NaN] passes both of its tests, [< 0] and
    [> 31], and [new SnowflakeGenerator({ workerId: NaN })] returns an
    instance whose worker id is [NaN]; likewise for the process id. *)
Theorem constructor_accepts_NaN :
  Passed.constructor (Some (Passed.mkOptions (Some JS.NaN) None None))
  = Normal (Passed.mk JS.NaN (JS.Num (JS.Finite 1)) 1733011200000 0 (-1)) /\
  Passed.constructor (Some (Passed.mkOptions None (Some JS.NaN) None))
  = Normal (Passed.mk (JS.Num (JS.Finite 1)) JS.NaN 1733011200000 0 (-1)) /\
  Passed.constructor (Some (Passed.mkOptions (Some JS.NaN) (Some JS.NaN) None))
  = Normal (Passed.mk JS.NaN JS.NaN 1733011200000 0 (-1)).
Proof. repeat split. Qed.

(** ** The clock going back *)

(** C5. When the reading [getId()] takes is below [lastTimestamp], the call
    throws an error and returns no id.  While lastTimestamp - now is an
    integer a double holds (magnitude at most [MAX_SAFE_INTEGER], as for
    any two times of the clock since 1970), the message of the error
    carries lastTimestamp - now in decimal; with lastTimestamp at
    now + 5000 the message reports 5000 milliseconds. *)
Theorem getId_clock_regression (g : t) (now : Z) (rest : list Z) :
  now < lastTimestamp g ->
  (exists message,
      getId (mkMachine g (now :: rest)) = (Throw (Error message), mkMachine g rest)) /\
  (Z.abs (lastTimestamp g - now) <= MAX_SAFE_INTEGER ->
   getId (mkMachine g (now :: rest))
   = (Throw (Error ("Clock moved backwards. Refusing to generate ID for "
                    ++ JS.toString (lastTimestamp g - now)
                    ++ " milliseconds")%string),
      mkMachine g rest)) /\
  (lastTimestamp g = now + 5000 ->
   fst (getId (mkMachine g (now :: rest)))
   = Throw (Error "Clock moved backwards. Refusing to generate ID for 5000 milliseconds")).
Proof.
  intros Hlt. pose proof (getId_backwards g now rest Hlt) as E.
  unfold clock_moved_backwards in E.
  split; [eexists; exact E |].
  split.
  - intros Hsafe. rewrite E, sub_safe by assumption. reflexivity.
  - intros H5000. rewrite E. cbn [fst].
    rewrite sub_safe
      by (unfold MAX_SAFE_INTEGER; change (2 ^ 53 - 1) with 9007199254740991; lia).
    replace (lastTimestamp g - now) with 5000 by lia. reflexivity.
Qed.

(** An instance whose last id was issued at 1700000005000, called when the
    clock reads 1700000000000. *)
Lemma getId_clock_regression_witness :
  getId (mkMachine (mk 1 1 1609459200000 7 1700000005000) [1700000000000; 1700000005001])
  = (Throw (Error "Clock moved backwards. Refusing to generate ID for 5000 milliseconds"),
     mkMachine (mk 1 1 1609459200000 7 1700000005000) [1700000005001]).
Proof.
  destruct (getId_clock_regression (mk 1 1 1609459200000 7 1700000005000)
              1700000000000 [1700000005001])
    as (_ & Hmessage & _); [simpl; lia |].
  apply Hmessage. unfold MAX_SAFE_INTEGER. simpl. lia.
Defined.

(** C8. A call of [getId()] that throws leaves every field of the instance
    as it was, having taken one reading below [lastTimestamp] from the
    clock; whatever the clock delivers afterwards, the next call goes as it
    would have gone without the failed one. *)
Theorem getId_throw_keeps_state (m : Machine) (e : exn) (m' : Machine) :
  getId m = (Throw e, m') ->
  this m' = this m /\
  sequence (this m') = sequence (this m) /\
  lastTimestamp (this m') = lastTimestamp (this m) /\
  (exists now,
      clock m = now :: clock m' /\ now < lastTimestamp (this m) /\
      e = clock_moved_backwards (JS.sub (lastTimestamp (this m)) now)) /\
  (forall later, getId (mkMachine (this m') later) = getId (mkMachine (this m) later)).
Proof.
  destruct m as [g readings]. simpl.
  destruct readings as [| now rest]; [discriminate |].
  destruct (Z.ltb_spec now (lastTimestamp g)) as [Hlt | Hge].
  - rewrite (getId_backwards g now rest Hlt). intros H. injection H as <- <-. simpl.
    repeat split; try reflexivity.
    exists now. repeat split; assumption.
  - unfold getId, bind, getCurrentTimestamp, get_this, throw. simpl.
    replace (now <? lastTimestamp g) with false
      by (symmetry; apply Z.ltb_ge; assumption).
    unfold set_sequence, set_lastTimestamp, ret. simpl.
    intros H. exfalso. revert H.
    destruct (now =? lastTimestamp g); simpl; [| discriminate].
    destruct (_ =? 0); simpl; [| discriminate].
    unfold waitNextMillis, bind, getCurrentTimestamp. simpl.
    destruct rest as [| r rest]; simpl; [discriminate |].
    destruct (waitNextMillis_while now r rest) as [[ts | e' |] rest'] eqn:Hw;
      simpl; try discriminate.
    exfalso. revert Hw. clear. revert r.
    induction rest as [| r' rest IH]; intros r; simpl;
      destruct (r <=? now); try discriminate.
    apply IH.
Qed.

Lemma getId_throw_keeps_state_witness :
  let m := mkMachine (mk 1 1 1609459200000 7 1700000005000)
                     [1700000000000; 1700000005001] in
  let m' := mkMachine (mk 1 1 1609459200000 7 1700000005000) [1700000005001] in
  this m' = this m /\
  sequence (this m') = sequence (this m) /\
  lastTimestamp (this m') = lastTimestamp (this m) /\
  (exists now,
      clock m = now :: clock m' /\ now < lastTimestamp (this m) /\
      clock_moved_backwards 5000
      = clock_moved_backwards (JS.sub (lastTimestamp (this m)) now)) /\
  (forall later, getId (mkMachine (this m') later) = getId (mkMachine (this m) later)).
Proof.
  exact (getId_throw_keeps_state
           (mkMachine (mk 1 1 1609459200000 7 1700000005000)
                      [1700000000000; 1700000005001])
           (clock_moved_backwards 5000)
           (mkMachine (mk 1 1 1609459200000 7 1700000005000) [1700000005001])
           eq_refl).
Defined.

(** ** The busy wait *)

Section BusyWait.

(** Among the first [n] readings, either none is past [last] or there is a
    first one that is. *)
Lemma first_index_past (last : Z) (s : nat -> Z) (n : nat) :
  (forall i, (i < n)%nat -> s i <= last) \/
  exists k, (k < n)%nat /\ last < s k /\ forall i, (i < k)%nat -> s i <= last.
Proof.
  induction n as [| n [Hnone | (k & Hk & Hpast & Hbefore)]].
  - left. intros i Hi. lia.
  - destruct (Z_le_gt_dec (s n) last) as [Hle | Hgt].
    + left. intros i Hi.
      destruct (Nat.eq_dec i n) as [-> | Hne]; [assumption | apply Hnone; lia].
    + right. exists n. repeat split; [lia | lia | assumption].
  - right. exists k. repeat split; [lia | assumption | assumption].
Qed.

Lemma readings_of_split (s : nat -> Z) (k n : nat) :
  (k < n)%nat ->
  readings_of s n = readings_of s k ++ s k :: map s (seq (S k) (n - S k)).
Proof.
  intros Hk. unfold readings_of.
  replace n with (k + S (n - S k))%nat at 1 by lia.
  rewrite seq_app, map_app. reflexivity.
Qed.

Lemma readings_of_Forall (P : Z -> Prop) (s : nat -> Z) (k : nat) :
  (forall i, (i < k)%nat -> P (s i)) -> Forall P (readings_of s k).
Proof.
  intros H. unfold readings_of. apply Forall_forall. intros x Hx.
  apply in_map_iff in Hx. destruct Hx as (i & <- & Hi).
  apply in_seq in Hi. apply H. lia.
Qed.

End BusyWait.

(** C10. Let the clock deliver the readings s 0, s 1, ... and let some
    reading be strictly above [lastTimestamp].  Then there is a first such
    reading, s k, and [waitNextMillis(lastTimestamp)] returns it as soon as
    the clock has delivered it: after k + 1 reads, the clock standing at
    reading k + 1.  With k readings or fewer it is still spinning. *)
Theorem waitNextMillis_returns_first_later_reading
        (g : t) (lastTimestamp : Z) (s : nat -> Z) :
  (exists j, lastTimestamp < s j) ->
  exists k,
    lastTimestamp < s k /\
    (forall i, (i < k)%nat -> s i <= lastTimestamp) /\
    (forall n, (k < n)%nat ->
       waitNextMillis lastTimestamp (mkMachine g (readings_of s n))
       = (Normal (s k), mkMachine g (map s (seq (S k) (n - S k))))) /\
    (forall n, (n <= k)%nat ->
       waitNextMillis lastTimestamp (mkMachine g (readings_of s n))
       = (Pending, mkMachine g [])).
Proof.
  intros (j & Hj).
  destruct (first_index_past lastTimestamp s (S j))
    as [Hnone | (k & Hk & Hpast & Hbefore)].
  - specialize (Hnone j). lia.
  - exists k. repeat split; try assumption.
    + intros n Hn. rewrite (readings_of_split s k n Hn).
      apply waitNextMillis_found; [| assumption].
      apply readings_of_Forall. assumption.
    + intros n Hn. apply waitNextMillis_spinning.
      apply readings_of_Forall. intros i Hi. apply Hbefore. lia.
Qed.

(** The clock reads 7, 7, 5, 9, 12 and the wait is for a reading past 7: the
    fourth reading, 9, is returned and the clock stands at 12. *)
Lemma waitNextMillis_returns_first_later_reading_witness :
  waitNextMillis 7 (mkMachine (mk 1 1 0 0 7) [7; 7; 5; 9; 12])
  = (Normal 9, mkMachine (mk 1 1 0 0 7) [12]) /\
  exists k,
    7 < nth k [7; 7; 5; 9; 12] 0 /\
    (forall i, (i < k)%nat -> nth i [7; 7; 5; 9; 12] 0 <= 7) /\
    (forall n, (k < n)%nat ->
       waitNextMillis 7
         (mkMachine (mk 1 1 0 0 7)
                    (readings_of (fun i => nth i [7; 7; 5; 9; 12] 0) n))
       = (Normal (nth k [7; 7; 5; 9; 12] 0),
          mkMachine (mk 1 1 0 0 7)
                    (map (fun i => nth i [7; 7; 5; 9; 12] 0) (seq (S k) (n - S k))))) /\
    (forall n, (n <= k)%nat ->
       waitNextMillis 7
         (mkMachine (mk 1 1 0 0 7)
                    (readings_of (fun i => nth i [7; 7; 5; 9; 12] 0) n))
       = (Pending, mkMachine (mk 1 1 0 0 7) [])).
Proof.
  split; [reflexivity |].
  apply (waitNextMillis_returns_first_later_reading
           (mk 1 1 0 0 7) 7 (fun i => nth i [7; 7; 5; 9; 12] 0)).
  exists 3%nat. simpl. lia.
Defined.

(** ** [deconstruct] on arbitrary input *)

(** C9, as the code has it.  On every string that [BigInt] accepts,
    [deconstruct] returns, leaves the machine as it was, and gives a worker
    id and a process id in [0, 31] and a sequence in [0, 4095], each the
    masked field of the id.  The timestamp is [Number] of the id shifted
    right by 22 bits plus the epoch: that sum itself when its magnitude is
    at most [MAX_SAFE_INTEGER], as for every id below 2^64 decoded under an
    epoch of magnitude at most 2^52, and the nearest double otherwise. *)
Theorem deconstruct_total (id : string) (snowflakeId : Z) (m : Machine) :
  JS.StringToBigInt id = Some snowflakeId ->
  exists w p s,
    deconstruct id m
    = (Normal
         (Parts.mk (JS.Number (Z.shiftr snowflakeId 22 + epoch (this m)))
                   (JS.Finite w) (JS.Finite p) (JS.Finite s)
                   (JS.Date_new (JS.Number (Z.shiftr snowflakeId 22 + epoch (this m))))),
       m) /\
    w = Z.land (Z.shiftr snowflakeId 17) 31 /\ 0 <= w <= 31 /\
    p = Z.land (Z.shiftr snowflakeId 12) 31 /\ 0 <= p <= 31 /\
    s = Z.land snowflakeId 4095 /\ 0 <= s <= 4095 /\
    (Z.abs (Z.shiftr snowflakeId 22 + epoch (this m)) <= MAX_SAFE_INTEGER ->
     JS.Number (Z.shiftr snowflakeId 22 + epoch (this m))
     = JS.Finite (Z.shiftr snowflakeId 22 + epoch (this m))) /\
    (0 <= snowflakeId < 2 ^ 64 -> Z.abs (epoch (this m)) <= 2 ^ 52 ->
     JS.Number (Z.shiftr snowflakeId 22 + epoch (this m))
     = JS.Finite (Z.shiftr snowflakeId 22 + epoch (this m))).
Proof.
  intros Hparse.
  exists (Z.land (Z.shiftr snowflakeId 17) 31),
         (Z.land (Z.shiftr snowflakeId 12) 31),
         (Z.land snowflakeId 4095).
  assert (H31 : forall x, 0 <= Z.land x 31 <= 31).
  { intros x. change 31 with (2 ^ 5 - 1) at 1 2. rewrite land_mask by lia.
    assert (0 <= x mod 2 ^ 5 < 2 ^ 5) by (apply Z.mod_pos_bound; lia).
    change (2 ^ 5) with 32 in *. lia. }
  assert (H4095 : forall x, 0 <= Z.land x 4095 <= 4095).
  { intros x. change 4095 with (2 ^ 12 - 1) at 1 2. rewrite land_mask by lia.
    assert (0 <= x mod 2 ^ 12 < 2 ^ 12) by (apply Z.mod_pos_bound; lia).
    change (2 ^ 12) with 4096 in *. lia. }
  split.
  { rewrite (deconstruct_parsed id snowflakeId m Hparse).
    rewrite !(Number_safe (Z.land _ 31)), (Number_safe (Z.land _ 4095)).
    - reflexivity.
    - pose proof (H4095 snowflakeId). unfold MAX_SAFE_INTEGER.
      change (2 ^ 53 - 1) with 9007199254740991. lia.
    - pose proof (H31 (Z.shiftr snowflakeId 12)). unfold MAX_SAFE_INTEGER.
      change (2 ^ 53 - 1) with 9007199254740991. lia.
    - pose proof (H31 (Z.shiftr snowflakeId 17)). unfold MAX_SAFE_INTEGER.
      change (2 ^ 53 - 1) with 9007199254740991. lia. }
  split; [reflexivity |]. split; [apply H31 |].
  split; [reflexivity |]. split; [apply H31 |].
  split; [reflexivity |]. split; [apply H4095 |].
  split.
  - apply Number_safe.
  - intros Hid He. apply Number_safe.
    rewrite Z.shiftr_div_pow2 by lia.
    assert (0 <= snowflakeId / 2 ^ 22 < 2 ^ 42).
    { split; [apply Z.div_pos; lia |].
      apply Z.div_lt_upper_bound; [lia |].
      change (2 ^ 22 * 2 ^ 42) with (2 ^ 64). lia. }
    unfold MAX_SAFE_INTEGER.
    change (2 ^ 42) with 4398046511104 in *.
    change (2 ^ 52) with 4503599627370496 in *.
    change (2 ^ 53 - 1) with 9007199254740991. lia.
Qed.

(** The id issued first by a worker 5, process 10 instance of epoch
    1609459200000 at epoch + 1000. *)
Lemma deconstruct_total_witness :
  exists w p s,
    deconstruct "4195000320" (mkMachine (mk 1 1 1609459200000 0 (-1)) [])
    = (Normal
         (Parts.mk (JS.Number (Z.shiftr 4195000320 22 + 1609459200000))
                   (JS.Finite w) (JS.Finite p) (JS.Finite s)
                   (JS.Date_new (JS.Number (Z.shiftr 4195000320 22 + 1609459200000)))),
       mkMachine (mk 1 1 1609459200000 0 (-1)) []) /\
    w = Z.land (Z.shiftr 4195000320 17) 31 /\ 0 <= w <= 31 /\
    p = Z.land (Z.shiftr 4195000320 12) 31 /\ 0 <= p <= 31 /\
    s = Z.land 4195000320 4095 /\ 0 <= s <= 4095 /\
    (Z.abs (Z.shiftr 4195000320 22 + 1609459200000) <= MAX_SAFE_INTEGER ->
     JS.Number (Z.shiftr 4195000320 22 + 1609459200000)
     = JS.Finite (Z.shiftr 4195000320 22 + 1609459200000)) /\
    (0 <= 4195000320 < 2 ^ 64 -> Z.abs 1609459200000 <= 2 ^ 52 ->
     JS.Number (Z.shiftr 4195000320 22 + 1609459200000)
     = JS.Finite (Z.shiftr 4195000320 22 + 1609459200000)).
Proof.
  exact (deconstruct_total "4195000320" 4195000320
           (mkMachine (mk 1 1 1609459200000 0 (-1)) []) eq_refl).
Defined.

(** C9, as stated, fails on a 23-digit input: the id (2^53 + 1) * 2^22
    under the default epoch has the odd sum 9008932265940993 above 2^53,
    which no double holds; the timestamp returned is 9008932265940992. *)
Lemma deconstruct_timestamp_rounded :
  JS.StringToBigInt "37778931862957165903872" = Some 37778931862957165903872 /\
  constructor None = Normal (mk 1 1 1733011200000 0 (-1)) /\
  Z.shiftr 37778931862957165903872 22 + 1733011200000 = 9008932265940993 /\
  exists parts,
    deconstruct "37778931862957165903872"
                (mkMachine (mk 1 1 1733011200000 0 (-1)) [])
    = (Normal parts, mkMachine (mk 1 1 1733011200000 0 (-1)) []) /\
    Parts.timestamp parts = JS.Finite 9008932265940992 /\
    Parts.timestamp parts
    <> JS.Finite (Z.shiftr 37778931862957165903872 22 + 1733011200000).
Proof.
  split; [reflexivity |]. split; [reflexivity |]. split; [reflexivity |].
  eexists. split; [reflexivity |]. split.
  - vm_compute. reflexivity.
  - vm_compute. discriminate.
Qed.

(** ** [IdService.getSnowflake] *)

Section Service.

(** The call of [getId()] on an instance just made: one reading taken, the
    sequence 0, or 1 when the reading is the -1 that [lastTimestamp] starts
    at. *)
Lemma getId_first_call (g : t) (now : Z) (rest : list Z) (id : string) (m' : Machine) :
  sequence g = 0 -> lastTimestamp g = -1 ->
  getId (mkMachine g (now :: rest)) = (Normal id, m') ->
  -1 <= now /\
  id = JS.toString (getId_id (with_state g (if now =? -1 then 1 else 0) now) now) /\
  m' = mkMachine (with_state g (if now =? -1 then 1 else 0) now) rest.
Proof.
  intros Hs Hl.
  destruct (Z.lt_trichotomy now (-1)) as [Hlt | [Heq | Hgt]].
  - rewrite getId_backwards by lia. discriminate.
  - rewrite getId_same_millisecond by lia.
    rewrite Hs. subst now. simpl. intros [= <- <-]. auto with zarith.
  - rewrite getId_new_millisecond by lia.
    replace (now =? -1) with false by (symmetry; apply Z.eqb_neq; lia).
    intros [= <- <-]. split; [lia | auto].
Qed.

(** The sequence [deconstruct] reads from an id of [getId]. *)
Lemma deconstruct_sequence (g : t) (timestamp : Z) (m : Machine) :
  wf g ->
  exists parts,
    deconstruct (JS.toString (getId_id g timestamp)) m = (Normal parts, m) /\
    Parts.sequence parts = JS.Finite (sequence g).
Proof.
  intros Hg.
  rewrite (deconstruct_parsed _ _ _ (StringToBigInt_toString _)).
  eexists. split; [reflexivity |]. simpl.
  rewrite getId_id_sum by assumption.
  destruct Hg as (Hw & Hp & Hs).
  destruct (fields_of_sum (JS.sub timestamp (epoch g)) _ _ _ Hw Hp Hs)
    as (_ & _ & _ & ->).
  apply Number_safe. unfold MAX_SAFE_INTEGER.
  change (2 ^ 53 - 1) with 9007199254740991. lia.
Qed.

End Service.

(** C4.  The clock reads a time since 1970: a reading is not negative.  A
    call of [IdService.getSnowflake] that returns an id has made a new
    generator (sequence 0, lastTimestamp -1) from the options in force and
    taken one reading of the clock; the id decodes to sequence 0; and a
    call with the same service and options whose reading is the same
    millisecond returns the same id. *)
Theorem getSnowflake_new_generator_each_call
        (svc : IdService.t) (options : option SnowflakeOptions.t)
        (now : Z) (rest : list Z) (id : string) (rest' : list Z) :
  0 <= now ->
  IdService.getSnowflake svc options (now :: rest) = (Normal id, rest') ->
  (exists generator,
      SnowflakeGenerator.constructor
        (match options with
         | Some o => Some o
         | None => IdGeneratorOptions.snowflake (IdService.options svc)
         end) = Normal generator /\
      sequence generator = 0 /\ lastTimestamp generator = -1 /\
      fst (getId (mkMachine generator (now :: rest))) = Normal id) /\
  rest' = rest /\
  (forall decoder readings,
   exists parts,
     deconstruct id (mkMachine decoder readings)
     = (Normal parts, mkMachine decoder readings) /\
     Parts.sequence parts = JS.Finite 0) /\
  (forall later,
      IdService.getSnowflake svc options (now :: later) = (Normal id, later)).
Proof.
  intros Hclock. unfold IdService.getSnowflake.
  set (finalOptions := match options with Some o => Some o | None => _ end).
  destruct (constructor finalOptions) as [g | e |] eqn:Hc; try discriminate.
  destruct (constructor_wf _ _ Hc) as (Hg & Hs & Hl).
  destruct (getId (mkMachine g (now :: rest))) as [r m'] eqn:E.
  intros H. injection H as -> <-.
  destruct (getId_first_call g now rest id m' Hs Hl E) as (Hnow & Hid & ->).
  assert (Hlater : forall later,
    getId (mkMachine g (now :: later))
    = (Normal id,
       mkMachine (with_state g (if now =? -1 then 1 else 0) now) later)).
  { intros later. rewrite Hid.
    destruct (Z.eq_dec now (-1)) as [-> | Hne].
    - rewrite getId_same_millisecond by lia. rewrite Hs. reflexivity.
    - rewrite getId_new_millisecond by lia.
      replace (now =? -1) with false by (symmetry; apply Z.eqb_neq; lia).
      reflexivity. }
  split; [| split; [| split]].
  - exists g. split; [reflexivity |]. split; [assumption |].
    split; [assumption |]. rewrite E. reflexivity.
  - reflexivity.
  - intros decoder readings.
    replace (now =? -1) with false in Hid by (symmetry; apply Z.eqb_neq; lia).
    rewrite Hid.
    apply (deconstruct_sequence (with_state g 0 now) now).
    apply with_state_wf; [assumption | lia].
  - intros later. rewrite Hlater. reflexivity.
Qed.

(** Two calls in the millisecond 1733011200001 on a service configured with
    no Snowflake options: the same id twice. *)
Lemma getSnowflake_new_generator_each_call_witness :
  IdService.getSnowflake (IdService.mk (IdGeneratorOptions.mk None)) None
                         [1733011200001; 1733011200001]
  = (Normal "4329472", [1733011200001]) /\
  IdService.getSnowflake (IdService.mk (IdGeneratorOptions.mk None)) None
                         [1733011200001]
  = (Normal "4329472", []).
Proof.
  pose proof (getSnowflake_new_generator_each_call
                (IdService.mk (IdGeneratorOptions.mk None)) None
                1733011200001 [] "4329472" [] ltac:(lia) eq_refl)
    as (_ & _ & _ & Hsame).
  split; [exact (Hsame [1733011200001]) | exact (Hsame [])].
Defined.

(** ** Filling a millisecond *)

Section Exhaustion.

Lemma calls_app (a b : nat) (m : Machine) :
  calls (a + b) m =
  (fst (calls a m) ++ fst (calls b (snd (calls a m))),
   snd (calls b (snd (calls a m)))).
Proof.
  revert m. induction a as [| a IH]; intros m; simpl.
  - destruct (calls b m). reflexivity.
  - destruct (getId m) as [r m1]. rewrite IH.
    destruct (calls a m1) as [rs m2]. simpl. reflexivity.
Qed.

Lemma returned_Normal (ids : list string) : returned (map Normal ids) = ids.
Proof. induction ids as [| id ids IH]; simpl; [| rewrite IH]; reflexivity. Qed.

Lemma map_toString_inj (xs ys : list Z) :
  map JS.toString xs = map JS.toString ys -> xs = ys.
Proof.
  revert ys. induction xs as [| x xs IH]; intros [| y ys] H;
    try discriminate; [reflexivity |].
  simpl in H. injection H as Hx Hxs.
  apply toString_inj in Hx. rewrite Hx, (IH ys Hxs). reflexivity.
Qed.

(** Further calls in the millisecond of the last id, while the sequence has
    room: one reading each, the sequence going up by one. *)
Lemma calls_same_millisecond (k : nat) :
  forall g rest,
    0 <= sequence g -> sequence g + Z.of_nat k <= 4095 ->
    calls k (mkMachine g (repeat (lastTimestamp g) k ++ rest))
    = (map (fun i => Normal (JS.toString
              (getId_id (with_state g (sequence g + Z.of_nat i) (lastTimestamp g))
                        (lastTimestamp g))))
           (seq 1 k),
       mkMachine (with_state g (sequence g + Z.of_nat k) (lastTimestamp g)) rest).
Proof.
  induction k as [| k IH]; intros g rest Hs0 Hs.
  - simpl. rewrite Z.add_0_r, with_state_same. reflexivity.
  - cbn [calls repeat]. rewrite <- app_comm_cons.
    rewrite getId_same_millisecond by lia.
    pose proof (IH (with_state g (sequence g + 1) (lastTimestamp g)) rest) as Hk.
    simpl sequence in Hk. simpl lastTimestamp in Hk.
    rewrite Hk by lia. clear Hk.
    cbn [seq map].
    replace (seq 2 k) with (map S (seq 1 k)) by apply seq_shift.
    rewrite map_map.
    f_equal.
    + f_equal.
      apply map_ext. intros i. unfold with_state. simpl.
      do 4 f_equal. lia.
    + unfold with_state. simpl. do 2 f_equal. lia.
Qed.

(** The first [k] calls of a millisecond not seen before, [k] from 1 to
    4096: sequence numbers 0 to [k - 1], one reading each. *)
Lemma calls_new_millisecond (k : nat) (g : t) (T : Z) (rest : list Z) :
  lastTimestamp g < T -> (k <= 4095)%nat ->
  calls (S k) (mkMachine g (repeat T (S k) ++ rest))
  = (map (fun id => Normal (JS.toString id)) (ids_of_millisecond g T (S k)),
     mkMachine (with_state g (Z.of_nat k) T) rest).
Proof.
  intros Hnew Hk. cbn [calls repeat]. rewrite <- app_comm_cons.
  rewrite getId_new_millisecond by assumption.
  pose proof (calls_same_millisecond k (with_state g 0 T) rest) as Hsame.
  simpl sequence in Hsame. simpl lastTimestamp in Hsame.
  rewrite Hsame by lia.
  unfold ids_of_millisecond. cbn [seq map]. rewrite !map_map.
  reflexivity.
Qed.

Lemma nth_error_ids_of_millisecond (g : t) (T : Z) (k i : nat) :
  (i < k)%nat ->
  nth_error (ids_of_millisecond g T k) i
  = Some (getId_id (with_state g (Z.of_nat i) T) T).
Proof.
  intros Hi. unfold ids_of_millisecond.
  rewrite nth_error_map.
  rewrite (nth_error_nth' (seq 0 k) 0%nat) by (rewrite length_seq; assumption).
  rewrite seq_nth by assumption. reflexivity.
Qed.

(** In any run, the ids with one timestamp field are at most 4096, while
    every reading less the epoch is an integer a double holds. *)
Lemma calls_at_most_4096 (n : nat) (g : t) (readings : list Z) (T : Z) :
  wf g ->
  Forall (fun now => Z.abs (now - epoch g) <= MAX_SAFE_INTEGER) readings ->
  exists values,
    map JS.StringToBigInt (returned (fst (calls n (mkMachine g readings))))
    = map Some values /\
    (List.length (filter (fun v => (Z.shiftr v 22 =? T - epoch g)%Z) values)
     <= 4096)%nat.
Proof.
  intros Hg Hsafe.
  destruct (calls_returned n g readings Hg) as (zs & Hzs & Hsorted & Hshape & _).
  destruct (Hsorted Hsafe) as (Hsorted' & _). clear Hsorted.
  exists zs. split; [rewrite Hzs; apply map_StringToBigInt_toString |].
  set (base := (T - epoch g) * 2 ^ 22 + workerId g * 2 ^ 17 + processId g * 2 ^ 12).
  assert (Hbound : Forall (fun z => base <= z <= base + 4095)
                          (filter (fun v => Z.shiftr v 22 =? T - epoch g) zs)).
  { apply Forall_forall. intros z Hz. apply filter_In in Hz.
    destruct Hz as (Hin & Hfield). apply Z.eqb_eq in Hfield.
    rewrite Forall_forall in Hshape.
    destruct (Hshape z Hin) as (s & ts & Hs & Hts & ->).
    assert (Hwf : wf (with_state g s ts)) by (apply with_state_wf; assumption).
    rewrite Forall_forall in Hsafe.
    rewrite getId_id_sum_safe in Hfield |- * by (try assumption; exact (Hsafe ts Hts)).
    destruct Hwf as (Hw & Hp & Hq).
    destruct (fields_of_sum (ts - epoch (with_state g s ts)) _ _ _ Hw Hp Hq)
      as (Ht & _).
    rewrite Ht in Hfield.
    unfold with_state in *.
    cbn [SnowflakeGenerator.workerId SnowflakeGenerator.processId
         SnowflakeGenerator.sequence SnowflakeGenerator.epoch] in *.
    subst base. replace ts with T by lia. lia. }
  pose proof (StronglySorted_length_bound _
                (StronglySorted_filter _ _ Hsorted') _ _ Hbound) as Hlen.
  lia.
Qed.

Lemma calls_one (m : Machine) :
  calls 1 m = ([fst (getId m)], snd (getId m)).
Proof. simpl. destruct (getId m). reflexivity. Qed.

(** A run that fills the millisecond [T], spins while the clock stays
    there, and goes on in the millisecond [T']. *)
Lemma calls_across_wrap (g : t) (T T' : Z) (extra b : nat) (rest : list Z) :
  wf g -> lastTimestamp g < T -> T < T' -> (b <= 4095)%nat ->
  calls (4096 + (1 + b))
        (mkMachine g (repeat T 4096 ++ (T :: repeat T extra)
                      ++ (T' :: repeat T' b) ++ rest))
  = (map (fun id => Normal (JS.toString id))
         (ids_of_millisecond g T 4096 ++ ids_of_millisecond g T' (S b)),
     mkMachine (with_state g (Z.of_nat b) T') rest).
Proof.
  intros Hg Hnew Hnext Hb.
  rewrite calls_app.
  rewrite (calls_new_millisecond 4095 g T) by (try assumption; lia).
  cbn [fst snd].
  rewrite calls_app, calls_one.
  rewrite <- !app_comm_cons.
  rewrite (getId_wrap (with_state g (Z.of_nat 4095) T) T (repeat T extra) T'
             (repeat T' b ++ rest));
    [| reflexivity | reflexivity
     | apply Forall_forall; intros r Hr; apply repeat_spec in Hr; lia
     | assumption].
  cbn [fst snd].
  pose proof (calls_same_millisecond b
                (with_state (with_state g (Z.of_nat 4095) T) 0 T') rest) as Hsame.
  simpl sequence in Hsame. simpl lastTimestamp in Hsame.
  rewrite Hsame by lia. clear Hsame.
  cbn [fst snd].
  f_equal.
  rewrite map_app. f_equal.
  unfold ids_of_millisecond. cbn [seq map].
  rewrite <- app_comm_cons, app_nil_l, map_map.
  reflexivity.
Qed.

End Exhaustion.

(** C6.  [g] is an instance and [T] a millisecond after its last id; the
    milliseconds named, less the epoch, are integers a double holds
    (magnitude at most [MAX_SAFE_INTEGER]), as they are for a clock of this
    era under any epoch that [Date] can hold.
    - While the clock reads [T], 4096 calls return the ids of [T] with the
      sequence numbers 0 to 4095, a reading each.
    - A call that reads the millisecond of the last id with the sequence at
      4095 returns only from the first reading past it, with that reading
      as timestamp field (a larger one) and sequence 0; while the clock
      stays, the call is still running.
    - In no run, whatever the clock delivers among such milliseconds, do
      more than 4096 of the ids returned carry one timestamp field.
    - 5000 calls on a clock that stays at [T] for 4097 readings or more and
      then reads [T']: 5000 ids, the 4096 of [T] and then the first 904 of
      [T'], in strict order as integers, no two equal, unsigned 64-bit
      values when both milliseconds are in the 41-bit window. *)
Theorem getId_sequence_exhaustion (g : t) (T : Z) :
  wf g -> lastTimestamp g < T ->
  Z.abs (T - epoch g) <= MAX_SAFE_INTEGER ->
  (forall rest,
      calls 4096 (mkMachine g (repeat T 4096 ++ rest))
      = (map (fun id => Normal (JS.toString id)) (ids_of_millisecond g T 4096),
         mkMachine (with_state g 4095 T) rest)) /\
  (forall i id,
      nth_error (ids_of_millisecond g T 4096) i = Some id ->
      Z.shiftr id 22 = T - epoch g /\ Z.land id 4095 = Z.of_nat i /\
      (i <= 4095)%nat) /\
  (forall g' now spun next rest,
      wf g' -> lastTimestamp g' = now -> sequence g' = 4095 ->
      Forall (fun r => r <= now) spun -> now < next ->
      Z.abs (now - epoch g') <= MAX_SAFE_INTEGER ->
      Z.abs (next - epoch g') <= MAX_SAFE_INTEGER ->
      getId (mkMachine g' (now :: spun ++ next :: rest))
      = (Normal (JS.toString (getId_id (with_state g' 0 next) next)),
         mkMachine (with_state g' 0 next) rest) /\
      Z.shiftr (getId_id g' now) 22 = now - epoch g' /\
      Z.shiftr (getId_id (with_state g' 0 next) next) 22 = next - epoch g' /\
      now - epoch g' < next - epoch g' /\
      Z.land (getId_id (with_state g' 0 next) next) 4095 = 0) /\
  (forall g' now spun,
      lastTimestamp g' = now -> sequence g' = 4095 ->
      Forall (fun r => r <= now) spun ->
      fst (getId (mkMachine g' (now :: spun))) = Pending) /\
  (forall n readings ts,
   Forall (fun now => Z.abs (now - epoch g) <= MAX_SAFE_INTEGER) readings ->
   exists values,
     map JS.StringToBigInt (returned (fst (calls n (mkMachine g readings))))
     = map Some values /\
     (List.length (filter (fun v => (Z.shiftr v 22 =? ts - epoch g)%Z) values)
      <= 4096)%nat) /\
  (forall T' extra rest,
      T < T' ->
      Z.abs (T' - epoch g) <= MAX_SAFE_INTEGER ->
      let ids := ids_of_millisecond g T 4096 ++ ids_of_millisecond g T' 904 in
      calls 5000 (mkMachine g (repeat T (4097 + extra) ++ repeat T' 904 ++ rest))
      = (map (fun id => Normal (JS.toString id)) ids,
         mkMachine (with_state g 903 T') rest) /\
      List.length ids = 5000%nat /\
      StronglySorted Z.lt ids /\
      NoDup (map JS.toString ids) /\
      (forall i id,
          nth_error ids i = Some id ->
          Z.shiftr id 22 = (if (i <? 4096)%nat then T else T') - epoch g) /\
      (epoch g <= T -> T' <= epoch g + 2 ^ 41 - 1 ->
       Forall (fun id => 0 <= id < 2 ^ 64) ids)).
Proof.
  intros Hg Hnew HsafeT.
  assert (Hfield : forall i ts,
    (i <= 4095)%nat ->
    Z.abs (ts - epoch g) <= MAX_SAFE_INTEGER ->
    Z.shiftr (getId_id (with_state g (Z.of_nat i) ts) ts) 22 = ts - epoch g /\
    Z.land (getId_id (with_state g (Z.of_nat i) ts) ts) 4095 = Z.of_nat i).
  { intros i ts Hi Hts.
    assert (Hwf : wf (with_state g (Z.of_nat i) ts))
      by (apply with_state_wf; [assumption | lia]).
    rewrite getId_id_sum_safe by assumption.
    destruct Hwf as (Hw & Hp & Hs).
    destruct (fields_of_sum (ts - epoch g) _ _ _ Hw Hp Hs) as (Ht & _ & _ & Hq).
    split; assumption. }
  assert (Hlen : forall ts k, List.length (ids_of_millisecond g ts k) = k).
  { intros ts k. unfold ids_of_millisecond. rewrite length_map. apply length_seq. }
  assert (Hnth : forall ts k i id,
    nth_error (ids_of_millisecond g ts k) i = Some id ->
    (i < k)%nat /\ id = getId_id (with_state g (Z.of_nat i) ts) ts).
  { intros ts k i id Hid.
    assert (Hi : (i < k)%nat).
    { rewrite <- (Hlen ts k). apply nth_error_Some. congruence. }
    rewrite nth_error_ids_of_millisecond in Hid by assumption.
    split; [assumption | congruence]. }
  split; [| split; [| split; [| split; [| split]]]].
  - intros rest. exact (calls_new_millisecond 4095 g T rest Hnew (le_n _)).
  - intros i id Hid. apply Hnth in Hid. destruct Hid as (Hi & ->).
    destruct (Hfield i T) as (Ht & Hs); [lia | assumption |].
    repeat split; [assumption | assumption | lia].
  - intros g' now spun next rest Hg' Hlast Hmax Hspun Hnext Hnow' Hnext'.
    split; [apply getId_wrap; auto |].
    assert (Hwf0 : wf (with_state g' 0 next))
      by (apply with_state_wf; [assumption | lia]).
    rewrite !getId_id_sum_safe by assumption.
    destruct Hg' as (Hw & Hp & Hs).
    destruct (fields_of_sum (now - epoch g') _ _ _ Hw Hp Hs) as (Ht & _).
    destruct Hwf0 as (Hw0 & Hp0 & Hs0).
    destruct (fields_of_sum (next - epoch g') _ _ _ Hw0 Hp0 Hs0)
      as (Ht0 & _ & _ & Hq0).
    repeat split; try assumption. lia.
  - intros g' now spun Hlast Hmax Hspun.
    rewrite getId_wrap_spinning by auto. reflexivity.
  - intros n readings ts. apply calls_at_most_4096. assumption.
  - intros T' extra rest Hnext HsafeT' ids.
    assert (Hrun : forall rest0,
      calls 5000 (mkMachine g (repeat T (4097 + extra) ++ repeat T' 904 ++ rest0))
      = (map (fun id => Normal (JS.toString id)) ids,
         mkMachine (with_state g 903 T') rest0)).
    { intros rest0. change 5000%nat with (4096 + (1 + 903))%nat.
      replace (4097 + extra)%nat with (4096 + S extra)%nat by lia.
      rewrite repeat_app, <- app_assoc.
      change (repeat T (S extra)) with (T :: repeat T extra).
      change (repeat T' 904) with (T' :: repeat T' 903).
      exact (calls_across_wrap g T T' extra 903 rest0 Hg Hnew Hnext ltac:(lia)). }
    assert (Hsorted : StronglySorted Z.lt ids).
    { destruct (calls_returned 5000 g
                  (repeat T (4097 + extra) ++ repeat T' 904 ++ []) Hg)
        as (zs & Hzs & Hs & _).
      rewrite Hrun in Hzs. cbn [fst] in Hzs.
      rewrite <- (map_map JS.toString Normal), returned_Normal in Hzs.
      apply map_toString_inj in Hzs. rewrite Hzs. apply Hs.
      rewrite app_nil_r. apply Forall_app.
      split; apply Forall_forall; intros r Hr; apply repeat_spec in Hr;
        subst r; assumption. }
    split; [exact (Hrun rest) |].
    split; [unfold ids; rewrite length_app, !Hlen; reflexivity |].
    split; [assumption |].
    split; [apply NoDup_map_toString, StronglySorted_NoDup; assumption |].
    split.
    + intros i id Hid. unfold ids in Hid.
      destruct (Nat.ltb_spec i 4096) as [Hi | Hi].
      * rewrite nth_error_app1 in Hid by (rewrite Hlen; assumption).
        apply Hnth in Hid. destruct Hid as (_ & ->).
        apply Hfield; [lia | assumption].
      * rewrite nth_error_app2 in Hid by (rewrite Hlen; assumption).
        rewrite Hlen in Hid.
        apply Hnth in Hid. destruct Hid as (Hlt & ->).
        apply Hfield; [lia | assumption].
    + intros HT HT'. unfold ids. apply Forall_app.
      split; apply Forall_forall; intros id Hin;
        apply In_nth_error in Hin; destruct Hin as (i & Hi);
        apply Hnth in Hi; destruct Hi as (Hlt & ->).
      * assert (0 <= getId_id (with_state g (Z.of_nat i) T) T < 2 ^ 63).
        { apply getId_id_range; [apply with_state_wf; [assumption | lia] |].
          simpl. lia. }
        change (2 ^ 64) with 18446744073709551616.
        change (2 ^ 63) with 9223372036854775808 in *. lia.
      * assert (0 <= getId_id (with_state g (Z.of_nat i) T') T' < 2 ^ 63).
        { apply getId_id_range; [apply with_state_wf; [assumption | lia] |].
          simpl. lia. }
        change (2 ^ 64) with 18446744073709551616.
        change (2 ^ 63) with 9223372036854775808 in *. lia.
Qed.

(** A new instance of epoch 1000 on a clock that reads 1000 for 4097
    readings and then 1001: the 5000 ids run from 135168 (timestamp field 0,
    sequence 0) to 4330375 (timestamp field 1, sequence 903). *)
Lemma getId_sequence_exhaustion_witness :
  let g := mk 1 1 1000 0 (-1) in
  let ids := ids_of_millisecond g 1000 4096 ++ ids_of_millisecond g 1001 904 in
  calls 5000 (mkMachine g (repeat 1000 (4097 + 0) ++ repeat 1001 904 ++ []))
  = (map (fun id => Normal (JS.toString id)) ids,
     mkMachine (with_state g 903 1001) []) /\
  List.length ids = 5000%nat /\
  StronglySorted Z.lt ids /\
  NoDup (map JS.toString ids) /\
  nth_error ids 0 = Some 135168 /\
  nth_error ids 4095 = Some 139263 /\
  nth_error ids 4096 = Some 4329472 /\
  nth_error ids 4999 = Some 4330375.
Proof.
  intros g ids.
  assert (Hg : wf g) by (repeat split; simpl; lia).
  assert (Hnew : lastTimestamp g < 1000) by (simpl; lia).
  assert (Hsafe : Z.abs (1000 - epoch g) <= MAX_SAFE_INTEGER)
    by (unfold MAX_SAFE_INTEGER; simpl; lia).
  assert (Hsafe' : Z.abs (1001 - epoch g) <= MAX_SAFE_INTEGER)
    by (unfold MAX_SAFE_INTEGER; simpl; lia).
  destruct (getId_sequence_exhaustion g 1000 Hg Hnew Hsafe)
    as (_ & _ & _ & _ & _ & H).
  destruct (H 1001 0%nat [] ltac:(lia) Hsafe')
    as (Hrun & Hlen & Hsorted & Hnodup & _).
  split; [exact Hrun |]. split; [exact Hlen |].
  split; [exact Hsorted |]. split; [exact Hnodup |].
  split; [vm_compute; reflexivity |]. split; [vm_compute; reflexivity |].
  split; vm_compute; reflexivity.
Defined.

(** ** The conversions, on examples *)

Example toString_examples :
  JS.toString 4194304 = "4194304" /\ JS.toString (-12) = "-12" /\
  JS.toString 0 = "0".
Proof. repeat split. Qed.

Example StringToBigInt_examples :
  JS.StringToBigInt "  42 " = Some 42 /\ JS.StringToBigInt "0x1F" = Some 31 /\
  JS.StringToBigInt "-7" = Some (-7) /\ JS.StringToBigInt "" = Some 0 /\
  JS.StringToBigInt "1e3" = None /\ JS.StringToBigInt "-0x1" = None /\
  JS.StringToBigInt "0x" = None /\ JS.StringToBigInt "+" = None /\
  JS.StringToBigInt "007" = Some 7 /\ JS.StringToBigInt "0b102" = None /\
  JS.StringToBigInt "12 3" = None.
Proof. repeat split. Qed.

Example Number_examples :
  JS.Number (2 ^ 53) = JS.Finite (2 ^ 53) /\
  JS.Number (2 ^ 53 + 1) = JS.Finite (2 ^ 53) /\
  JS.Number (2 ^ 53 + 3) = JS.Finite (2 ^ 53 + 4) /\
  JS.Number (2 ^ 53 + 2) = JS.Finite (2 ^ 53 + 2) /\
  JS.Number (- 2 ^ 60 - 1) = JS.Finite (- 2 ^ 60) /\
  JS.Number (2 ^ 1024) = JS.PosInfinity /\
  JS.Number (2 ^ 1024 - 2 ^ 970) = JS.PosInfinity /\
  JS.Number (2 ^ 1024 - 2 ^ 970 - 1) = JS.Finite (2 ^ 1024 - 2 ^ 971) /\
  JS.Number (- 2 ^ 1024) = JS.NegInfinity.
Proof. repeat split; vm_compute; reflexivity. Qed.

(** The subtraction past 2^53: a regression of 2^53 + 1 milliseconds is
    reported as 2^53; and under the epoch -(2^53 - 1), which the constructor
    takes, the milliseconds 1733011200001 and 1733011200002 have one
    timestamp field, so that a new instance returns one id twice. *)
Example sub_examples :
  JS.sub (2 ^ 53 - 1) (-2) = 2 ^ 53 /\
  JS.sub 1733011200001 (-(2 ^ 53 - 1)) = 2 ^ 53 + 1733011200000 /\
  JS.sub 1733011200002 (-(2 ^ 53 - 1)) = 2 ^ 53 + 1733011200000 /\
  fst (getId (mkMachine (mk 1 1 0 0 (2 ^ 53 - 1)) [-2]))
  = Throw (Error "Clock moved backwards. Refusing to generate ID for 9007199254740992 milliseconds") /\
  constructor (Some (SnowflakeOptions.mk None None (Some (-(2 ^ 53 - 1)))))
  = Normal (mk 1 1 (-(2 ^ 53 - 1)) 0 (-1)) /\
  fst (calls 2 (mkMachine (mk 1 1 (-(2 ^ 53 - 1)) 0 (-1))
                          [1733011200001; 1733011200002]))
  = [Normal "37786200638765366644736"; Normal "37786200638765366644736"].
Proof. repeat split; vm_compute; reflexivity. Qed.

(** ** Further properties of [SnowflakeGenerator] *)

Section MoreRuns.

Lemma getId_no_reading (g : t) : getId (mkMachine g []) = (Pending, mkMachine g []).
Proof. reflexivity. Qed.

(** What one call leaves of the receiver and of the clock. *)
Lemma getId_step_keeps (g : t) (readings : list Z) (r : Completion string) (m' : Machine) :
  wf g ->
  getId_step g readings r m' ->
  workerId (this m') = workerId g /\ processId (this m') = processId g /\
  epoch (this m') = epoch g /\ wf (this m') /\
  lastTimestamp g <= lastTimestamp (this m') /\
  exists used, readings = used ++ clock m'.
Proof.
  intros Hg Hstep. pose proof Hg as (Hw & Hp & Hs).
  inversion Hstep as
    [ | now rest Hback | now rest Hnew | now rest Hsame Hroom
      | now spun next rest Hsame Hmax Hspun Hnext | now spun Hsame Hmax Hspun ];
    subst; cbn [this clock with_state workerId processId epoch lastTimestamp];
    (split; [reflexivity |]); (split; [reflexivity |]); (split; [reflexivity |]).
  - split; [assumption |]. split; [lia |]. exists []. reflexivity.
  - split; [assumption |]. split; [lia |]. exists [now]. reflexivity.
  - split; [apply (with_state_wf g 0 now Hg); lia |]. split; [lia |].
    exists [now]. reflexivity.
  - split; [apply (with_state_wf g _ (lastTimestamp g) Hg); lia |]. split; [lia |].
    exists [lastTimestamp g]. reflexivity.
  - split; [apply (with_state_wf g 0 next Hg); lia |]. split; [lia |].
    exists (lastTimestamp g :: spun ++ [next]).
    rewrite <- app_comm_cons, <- app_assoc. reflexivity.
  - split; [apply (with_state_wf g 0 (lastTimestamp g) Hg); lia |]. split; [lia |].
    exists (lastTimestamp g :: spun). rewrite app_nil_r. reflexivity.
Qed.

Lemma calls_clock_empty (n : nat) :
  forall g, snd (calls n (mkMachine g [])) = mkMachine g [].
Proof.
  induction n as [| n IH]; intros g; [reflexivity |].
  cbn [calls]. rewrite getId_no_reading.
  specialize (IH g). destruct (calls n (mkMachine g [])) as [rs m2].
  exact IH.
Qed.

End MoreRuns.

(** X1. Whatever the clock delivers and however the calls complete, a run of
    [getId()] calls on an instance never changes its worker id, process id
    or epoch, keeps its sequence in [0, 4095], never lowers its
    lastTimestamp, and takes its readings from the front of the clock in
    order. *)
Theorem calls_keep_instance (n : nat) (g : t) (readings : list Z) :
  wf g ->
  let m' := snd (calls n (mkMachine g readings)) in
  workerId (this m') = workerId g /\ processId (this m') = processId g /\
  epoch (this m') = epoch g /\
  0 <= sequence (this m') <= 4095 /\
  lastTimestamp g <= lastTimestamp (this m') /\
  exists used, readings = used ++ clock m'.
Proof.
  revert g readings. induction n as [| n IH]; intros g readings Hg; cbn zeta.
  - cbn [calls snd this clock]. repeat split; try apply Hg; try lia.
    exists []. reflexivity.
  - cbn [calls].
    destruct (getId (mkMachine g readings)) as [r [g1 rest]] eqn:E.
    apply getId_step_of in E; [| apply Hg].
    destruct (getId_step_keeps g readings r _ Hg E)
      as (Hw & Hp & He & Hg1 & Hl & used & Hused).
    cbn [this clock] in *.
    specialize (IH g1 rest Hg1). cbn zeta in IH.
    destruct (calls n (mkMachine g1 rest)) as [rs m2]. cbn [snd] in *.
    destruct IH as (Hw2 & Hp2 & He2 & Hs2 & Hl2 & used2 & Hused2).
    repeat split; try congruence; try lia.
    exists (used ++ used2). rewrite <- app_assoc, <- Hused2. exact Hused.
Qed.

(** An instance of worker 3, process 7 and epoch 1000 over a clock that
    goes back once: three calls, one of them refused. *)
Lemma calls_keep_instance_witness :
  let g := mk 3 7 1000 0 (-1) in
  let m' := snd (calls 3 (mkMachine g [2000; 1500; 2000; 2001])) in
  fst (calls 3 (mkMachine g [2000; 1500; 2000; 2001]))
  = [Normal "4194725888";
     Throw (clock_moved_backwards 500);
     Normal "4194725889"] /\
  workerId (this m') = workerId g /\ processId (this m') = processId g /\
  epoch (this m') = epoch g /\
  0 <= sequence (this m') <= 4095 /\
  lastTimestamp g <= lastTimestamp (this m') /\
  exists used, [2000; 1500; 2000; 2001] = used ++ clock m'.
Proof.
  intros g m'. split; [reflexivity |].
  apply (calls_keep_instance 3 g [2000; 1500; 2000; 2001]).
  repeat split; simpl; lia.
Defined.

(** X2. On a clock that never goes back and starts at or after
    lastTimestamp, no call of a run throws; and while readings remain after
    the run, every one of its [n] calls has returned an id. *)
Theorem calls_return_on_monotone_clock (n : nat) (g : t) (readings : list Z) :
  wf g ->
  Sorted Z.le readings ->
  Forall (fun now => lastTimestamp g <= now) readings ->
  (forall e, ~ In (Throw e) (fst (calls n (mkMachine g readings)))) /\
  (clock (snd (calls n (mkMachine g readings))) <> [] ->
   List.length (returned (fst (calls n (mkMachine g readings)))) = n).
Proof.
  intros Hg Hsorted Hlow.
  apply Sorted_StronglySorted in Hsorted; [| exact Z.le_trans].
  split; [apply calls_never_throw; [apply Hg | assumption | assumption] |].
  revert g readings Hg Hsorted Hlow.
  induction n as [| n IH]; intros g readings Hg Hsorted Hlow; [reflexivity |].
  cbn [calls].
  destruct (getId (mkMachine g readings)) as [r [g1 rest]] eqn:E.
  pose proof E as Hstep. apply getId_step_of in Hstep; [| apply Hg].
  destruct (getId_step_clock _ _ _ _ Hstep Hsorted Hlow) as (Hr & Hs1 & Hl1).
  destruct (getId_step_keeps g readings r _ Hg Hstep) as (_ & _ & _ & Hg1 & _).
  cbn [this clock] in *.
  specialize (IH g1 rest Hg1 Hs1 Hl1).
  destruct r as [id | e |].
  - destruct (calls n (mkMachine g1 rest)) as [rs m2]. cbn [fst snd returned] in *.
    intros Hleft. cbn [List.length]. f_equal. exact (IH Hleft).
  - exfalso. exact (Hr e eq_refl).
  - apply getId_Pending_clock in E; [| apply Hg]. cbn [clock] in E. subst rest.
    pose proof (calls_clock_empty n g1) as Hempty.
    destruct (calls n (mkMachine g1 [])) as [rs m2]. cbn [snd] in *.
    subst m2. intros Hleft. exfalso. apply Hleft. reflexivity.
Qed.

Lemma calls_return_on_monotone_clock_witness :
  (forall e, ~ In (Throw e)
                (fst (calls 3 (mkMachine (mk 1 1 1000 0 (-1)) [1000; 1000; 1002; 1003])))) /\
  (clock (snd (calls 3 (mkMachine (mk 1 1 1000 0 (-1)) [1000; 1000; 1002; 1003]))) <> [] ->
   List.length
     (returned (fst (calls 3 (mkMachine (mk 1 1 1000 0 (-1)) [1000; 1000; 1002; 1003]))))
   = 3%nat).
Proof.
  apply (calls_return_on_monotone_clock 3 (mk 1 1 1000 0 (-1)) [1000; 1000; 1002; 1003]).
  - repeat split; simpl; lia.
  - repeat constructor; lia.
  - repeat constructor; simpl; lia.
Defined.

(** X3. Two instances that differ in worker id or in process id never
    return the same id, whatever their epochs, their states and the clocks
    they read. *)
Theorem ids_of_distinct_instances_differ
        (g1 g2 : t) (readings1 readings2 : list Z) (n1 n2 : nat) (id : string) :
  wf g1 -> wf g2 ->
  workerId g1 <> workerId g2 \/ processId g1 <> processId g2 ->
  In id (returned (fst (calls n1 (mkMachine g1 readings1)))) ->
  ~ In id (returned (fst (calls n2 (mkMachine g2 readings2)))).
Proof.
  intros Hg1 Hg2 Hdiff Hin1 Hin2.
  destruct (calls_returned n1 g1 readings1 Hg1) as (zs1 & Hz1 & _ & Hshape1 & _).
  destruct (calls_returned n2 g2 readings2 Hg2) as (zs2 & Hz2 & _ & Hshape2 & _).
  rewrite Hz1 in Hin1. rewrite Hz2 in Hin2.
  apply in_map_iff in Hin1. destruct Hin1 as (z1 & <- & Hin1).
  apply in_map_iff in Hin2. destruct Hin2 as (z2 & Heq & Hin2).
  apply toString_inj in Heq. subst z2.
  rewrite Forall_forall in Hshape1, Hshape2.
  destruct (Hshape1 z1 Hin1) as (s1 & ts1 & Hs1 & _ & E1).
  destruct (Hshape2 z1 Hin2) as (s2 & ts2 & Hs2 & _ & E2).
  assert (Hwf1 : wf (with_state g1 s1 ts1)) by (apply with_state_wf; assumption).
  assert (Hwf2 : wf (with_state g2 s2 ts2)) by (apply with_state_wf; assumption).
  rewrite getId_id_sum in E1, E2 by assumption.
  destruct Hwf1 as (Hw1 & Hp1 & Hq1). destruct Hwf2 as (Hw2 & Hp2 & Hq2).
  destruct (fields_of_sum (JS.sub ts1 (epoch (with_state g1 s1 ts1))) _ _ _ Hw1 Hp1 Hq1)
    as (_ & Hfw1 & Hfp1 & _).
  destruct (fields_of_sum (JS.sub ts2 (epoch (with_state g2 s2 ts2))) _ _ _ Hw2 Hp2 Hq2)
    as (_ & Hfw2 & Hfp2 & _).
  rewrite <- E1 in Hfw1, Hfp1. rewrite <- E2 in Hfw2, Hfp2.
  cbn [with_state workerId processId] in Hfw1, Hfp1, Hfw2, Hfp2.
  destruct Hdiff as [Hd | Hd]; apply Hd; congruence.
Qed.

(** Worker 1 and worker 2 of one process on the same clock. *)
Lemma ids_of_distinct_instances_differ_witness :
  returned (fst (calls 2 (mkMachine (mk 1 1 1000 0 (-1)) [1000; 1000])))
  = ["135168"; "135169"] /\
  returned (fst (calls 2 (mkMachine (mk 2 1 1000 0 (-1)) [1000; 1000])))
  = ["266240"; "266241"] /\
  ~ In "135168" (returned (fst (calls 2 (mkMachine (mk 2 1 1000 0 (-1)) [1000; 1000])))).
Proof.
  split; [reflexivity |]. split; [reflexivity |].
  apply (ids_of_distinct_instances_differ
           (mk 1 1 1000 0 (-1)) (mk 2 1 1000 0 (-1)) [1000; 1000] [1000; 1000] 2 2).
  - repeat split; simpl; lia.
  - repeat split; simpl; lia.
  - left. simpl. lia.
  - left. reflexivity.
Defined.

(** X4. Ids sort by time across instances: under one epoch, an id built at
    an earlier millisecond is below every id built at a later one, whatever
    the worker ids, process ids and sequences of the two instances, while
    the two milliseconds less the epoch are integers a double holds
    (magnitude at most [MAX_SAFE_INTEGER]). *)
Theorem getId_id_orders_by_timestamp (g1 g2 : t) (ts1 ts2 : Z) :
  wf g1 -> wf g2 -> epoch g1 = epoch g2 -> ts1 < ts2 ->
  Z.abs (ts1 - epoch g1) <= MAX_SAFE_INTEGER ->
  Z.abs (ts2 - epoch g2) <= MAX_SAFE_INTEGER ->
  getId_id g1 ts1 < getId_id g2 ts2.
Proof.
  intros Hg1 Hg2 He Hts Hsafe1 Hsafe2.
  rewrite !getId_id_sum_safe by assumption.
  destruct Hg1 as (Hw1 & Hp1 & Hs1), Hg2 as (Hw2 & Hp2 & Hs2).
  rewrite He.
  change (2 ^ 22) with 4194304. change (2 ^ 17) with 131072.
  change (2 ^ 12) with 4096. lia.
Qed.

(** Worker 31, process 31, sequence 4095 at millisecond 1000 against worker
    0, process 0, sequence 0 at millisecond 1001. *)
Lemma getId_id_orders_by_timestamp_witness :
  getId_id (mk 31 31 1000 4095 1000) 1000 = 4194303 /\
  getId_id (mk 0 0 1000 0 1001) 1001 = 4194304 /\
  getId_id (mk 31 31 1000 4095 1000) 1000 < getId_id (mk 0 0 1000 0 1001) 1001.
Proof.
  split; [reflexivity |]. split; [reflexivity |].
  apply getId_id_orders_by_timestamp; try reflexivity;
    try (unfold MAX_SAFE_INTEGER; simpl; lia); repeat split; simpl; lia.
Defined.

(** X5. [getId] checks the timestamp against neither the epoch nor the 41
    bits: the id it builds is non-negative and below 2^63 exactly when the
    timestamp lies between the epoch and epoch + 2^41 - 1; it is negative
    exactly when the timestamp is before the epoch, and 2^63 or more exactly
    when the timestamp is past the window. *)
Theorem getId_id_fits_iff_in_window (g : t) (timestamp : Z) :
  wf g ->
  (0 <= getId_id g timestamp < 2 ^ 63 <->
   epoch g <= timestamp <= epoch g + 2 ^ 41 - 1) /\
  (getId_id g timestamp < 0 <-> timestamp < epoch g) /\
  (2 ^ 63 <= getId_id g timestamp <-> epoch g + 2 ^ 41 <= timestamp).
Proof.
  intros Hg. rewrite getId_id_sum by assumption.
  destruct Hg as (Hw & Hp & Hs).
  pose proof (sub_cases timestamp (epoch g)) as Hsub.
  unfold MAX_SAFE_INTEGER in Hsub.
  change (2 ^ 53 - 1) with 9007199254740991 in Hsub.
  change (2 ^ 53) with 9007199254740992 in Hsub.
  change (2 ^ 63) with 9223372036854775808.
  change (2 ^ 41) with 2199023255552.
  change (2 ^ 22) with 4194304. change (2 ^ 17) with 131072.
  change (2 ^ 12) with 4096.
  destruct Hsub as [(_ & ->) | [(Hbig & Hsub) | (Hlow & Hsub)]];
    repeat split; intros; lia.
Qed.

Lemma getId_id_fits_iff_in_window_witness :
  getId_id (mk 1 1 1000 0 (-1)) 999 = -4059136 /\
  getId_id (mk 1 1 1000 0 (-1)) (1000 + 2 ^ 41) = 2 ^ 63 + 135168 /\
  (0 <= getId_id (mk 1 1 1000 0 (-1)) 999 < 2 ^ 63 <->
   1000 <= 999 <= 1000 + 2 ^ 41 - 1) /\
  (getId_id (mk 1 1 1000 0 (-1)) 999 < 0 <-> 999 < 1000) /\
  (2 ^ 63 <= getId_id (mk 1 1 1000 0 (-1)) 999 <-> 1000 + 2 ^ 41 <= 999).
Proof.
  split; [reflexivity |]. split; [reflexivity |].
  apply (getId_id_fits_iff_in_window (mk 1 1 1000 0 (-1)) 999).
  repeat split; simpl; lia.
Defined.

Section MoreStrings.

Lemma toString_negative (z : Z) :
  z < 0 -> exists digits, JS.toString z = String "-" digits.
Proof.
  destruct z as [| p | p]; try lia. intros _.
  eexists. reflexivity.
Qed.

Lemma toString_non_negative (z : Z) :
  0 <= z -> exists d, d <> Nil /\ JS.toString z = NilEmpty.string_of_uint d.
Proof.
  destruct z as [| p | p]; try lia; intros _.
  - exists (D0 Nil). split; [discriminate | reflexivity].
  - exists (Pos.to_uint p). split; [apply to_uint_nonnil | reflexivity].
Qed.

Lemma getId_id_fits_window_sign (g : t) (s ts : Z) :
  wf g -> 0 <= s <= 4095 ->
  (epoch g <= ts -> 0 <= getId_id (with_state g s ts) ts) /\
  (ts < epoch g -> getId_id (with_state g s ts) ts < 0).
Proof.
  intros Hg Hs.
  assert (Hwf : wf (with_state g s ts)) by (apply with_state_wf; assumption).
  rewrite getId_id_sum by assumption.
  destruct Hg as (Hw & Hp & _).
  cbn [with_state workerId processId sequence epoch].
  pose proof (sub_cases ts (epoch g)) as Hsub.
  unfold MAX_SAFE_INTEGER in Hsub.
  change (2 ^ 53 - 1) with 9007199254740991 in Hsub.
  change (2 ^ 53) with 9007199254740992 in Hsub.
  change (2 ^ 22) with 4194304. change (2 ^ 17) with 131072.
  change (2 ^ 12) with 4096.
  destruct Hsub as [(_ & ->) | [(Hbig & Hsub) | (Hlow & Hsub)]];
    split; intros; lia.
Qed.

End MoreStrings.

(** X6. The string [getId()] returns is a run of decimal digits when the
    timestamp it used is at or after the epoch.  A reading before the epoch
    is not refused: the call returns a string that starts with a minus
    sign. *)
Theorem getId_string_format (g : t) (readings : list Z) (id : string) (m' : Machine) :
  wf g ->
  getId (mkMachine g readings) = (Normal id, m') ->
  (epoch g <= lastTimestamp (this m') ->
   exists d, d <> Nil /\ id = NilEmpty.string_of_uint d) /\
  (lastTimestamp (this m') < epoch g ->
   exists digits, id = String "-" digits).
Proof.
  intros Hg E. apply getId_step_of in E; [| apply Hg].
  destruct (getId_step_Normal g readings id m' Hg E)
    as (s & ts & used & -> & Hs & _ & -> & _ & _).
  cbn [this with_state lastTimestamp].
  assert (Hwf : wf (with_state g s ts)) by (apply with_state_wf; assumption).
  destruct (getId_id_fits_window_sign g s ts Hg Hs) as (Hpos & Hneg).
  split; intros H.
  - apply toString_non_negative. apply Hpos. assumption.
  - apply toString_negative. apply Hneg. assumption.
Qed.

(** The default epoch with the clock one hour before it, and at it. *)
Lemma getId_string_format_witness :
  getId (mkMachine (mk 1 1 1733011200000 0 (-1)) [1733007600000])
  = (Normal "-15099494264832", mkMachine (mk 1 1 1733011200000 0 1733007600000) []) /\
  ((1733011200000 <= 1733007600000 ->
    exists d, d <> Nil /\ "-15099494264832"%string = NilEmpty.string_of_uint d) /\
   (1733007600000 < 1733011200000 ->
    exists digits, "-15099494264832"%string = String "-" digits)).
Proof.
  split; [reflexivity |].
  exact (getId_string_format (mk 1 1 1733011200000 0 (-1)) [1733007600000]
           "-15099494264832" (mkMachine (mk 1 1 1733011200000 0 1733007600000) [])
           ltac:(repeat split; simpl; lia) eq_refl).
Defined.

(** X7. Every id that [getId()] returns, in whatever state of the instance
    and on whatever clock (a wrap of the sequence, a reading before the
    epoch or past the 41 bits included), is read by [deconstruct] on the
    same instance as the timestamp and sequence the call left in the
    instance and as its worker id and process id, while that timestamp and
    the timestamp less the epoch are integers a double holds (magnitude at
    most [MAX_SAFE_INTEGER]). *)
Theorem deconstruct_inverts_getId (g : t) (readings : list Z) (id : string) (m' : Machine) :
  wf g ->
  getId (mkMachine g readings) = (Normal id, m') ->
  Z.abs (lastTimestamp (this m')) <= MAX_SAFE_INTEGER ->
  Z.abs (lastTimestamp (this m') - epoch g) <= MAX_SAFE_INTEGER ->
  deconstruct id m'
  = (Normal
       (Parts.mk (JS.Finite (lastTimestamp (this m')))
                 (JS.Finite (workerId g)) (JS.Finite (processId g))
                 (JS.Finite (sequence (this m')))
                 (JS.Date_new (JS.Finite (lastTimestamp (this m'))))),
     m').
Proof. exact (getId_then_deconstruct g readings id m'). Qed.

(** The call that wraps the sequence at millisecond 1000 and returns from
    the reading 1002. *)
Lemma deconstruct_inverts_getId_witness :
  getId (mkMachine (mk 5 10 1000 4095 1000) [1000; 1000; 1002; 1003])
  = (Normal "9084928", mkMachine (mk 5 10 1000 0 1002) [1003]) /\
  deconstruct "9084928" (mkMachine (mk 5 10 1000 0 1002) [1003])
  = (Normal (Parts.mk (JS.Finite 1002) (JS.Finite 5) (JS.Finite 10) (JS.Finite 0)
                      (JS.Date_new (JS.Finite 1002))),
     mkMachine (mk 5 10 1000 0 1002) [1003]).
Proof.
  split; [reflexivity |].
  apply (deconstruct_inverts_getId (mk 5 10 1000 4095 1000) [1000; 1000; 1002; 1003]).
  - repeat split; simpl; lia.
  - reflexivity.
  - unfold MAX_SAFE_INTEGER. simpl. lia.
  - unfold MAX_SAFE_INTEGER. simpl. lia.
Defined.

(** X8. [deconstruct] uses nothing of its instance but the epoch: an id
    built under one epoch and decoded under another comes back with its
    worker id, process id and sequence, and with the timestamp moved by the
    difference of the two epochs, while the timestamp less the first epoch
    and the timestamp that comes back are integers a double holds
    (magnitude at most [MAX_SAFE_INTEGER]). *)
Theorem deconstruct_under_another_epoch
        (g decoder : t) (timestamp : Z) (readings : list Z) :
  wf g ->
  Z.abs (timestamp - epoch g) <= MAX_SAFE_INTEGER ->
  Z.abs (timestamp - epoch g + epoch decoder) <= MAX_SAFE_INTEGER ->
  deconstruct (JS.toString (getId_id g timestamp)) (mkMachine decoder readings)
  = (Normal
       (Parts.mk (JS.Finite (timestamp - epoch g + epoch decoder))
                 (JS.Finite (workerId g)) (JS.Finite (processId g))
                 (JS.Finite (sequence g))
                 (JS.Date_new (JS.Finite (timestamp - epoch g + epoch decoder)))),
     mkMachine decoder readings).
Proof.
  intros Hg Hexact Hsafe.
  rewrite (deconstruct_parsed _ _ _ (StringToBigInt_toString _)).
  rewrite getId_id_sum_safe by assumption.
  destruct Hg as (Hw & Hp & Hs).
  destruct (fields_of_sum (timestamp - epoch g) _ _ _ Hw Hp Hs)
    as (Ht & Hfw & Hfp & Hfs).
  rewrite Ht, Hfw, Hfp, Hfs. cbn [this].
  unfold MAX_SAFE_INTEGER in Hsafe.
  rewrite !Number_safe
    by (unfold MAX_SAFE_INTEGER; change (2 ^ 53 - 1) with 9007199254740991 in *; lia).
  reflexivity.
Qed.

(** An id of the default epoch decoded by an instance of epoch 0: the
    timestamp comes back 1733011200000 too low. *)
Lemma deconstruct_under_another_epoch_witness :
  deconstruct (JS.toString (getId_id (mk 5 10 1733011200000 3 (-1)) 1733011201000))
              (mkMachine (mk 1 1 1000 0 (-1)) [])
  = (Normal (Parts.mk (JS.Finite 2000) (JS.Finite 5) (JS.Finite 10) (JS.Finite 3)
                      (JS.Date_new (JS.Finite 2000))),
     mkMachine (mk 1 1 1000 0 (-1)) []).
Proof.
  apply (deconstruct_under_another_epoch (mk 5 10 1733011200000 3 (-1))
           (mk 1 1 1000 0 (-1)) 1733011201000 []).
  - repeat split; simpl; lia.
  - unfold MAX_SAFE_INTEGER. simpl. lia.
  - unfold MAX_SAFE_INTEGER. simpl. lia.
Defined.

(** X9. On the empty string, and on any string of white space only,
    [deconstruct] does not fail: [BigInt] reads 0, and the instance's epoch
    comes back as the timestamp with worker id, process id and sequence
    0. *)
Theorem deconstruct_blank (id : string) (m : Machine) :
  JS.trim id = EmptyString ->
  Z.abs (epoch (this m)) <= MAX_SAFE_INTEGER ->
  deconstruct id m
  = (Normal
       (Parts.mk (JS.Finite (epoch (this m))) (JS.Finite 0) (JS.Finite 0)
                 (JS.Finite 0) (JS.Date_new (JS.Finite (epoch (this m))))),
     m).
Proof.
  intros Hblank Hsafe.
  assert (Hparse : JS.StringToBigInt id = Some 0)
    by (unfold JS.StringToBigInt; rewrite Hblank; reflexivity).
  rewrite (deconstruct_parsed id 0 m Hparse).
  change (Z.shiftr 0 22) with 0. rewrite Z.add_0_l.
  rewrite (Number_safe (epoch (this m))) by assumption.
  reflexivity.
Qed.

Lemma deconstruct_blank_witness :
  deconstruct "" (mkMachine (mk 1 1 1733011200000 0 (-1)) [])
  = (Normal
       (Parts.mk (JS.Finite 1733011200000) (JS.Finite 0) (JS.Finite 0)
                 (JS.Finite 0) (JS.Date_new (JS.Finite 1733011200000))),
     mkMachine (mk 1 1 1733011200000 0 (-1)) []) /\
  deconstruct "   " (mkMachine (mk 1 1 1733011200000 0 (-1)) [])
  = deconstruct "" (mkMachine (mk 1 1 1733011200000 0 (-1)) []).
Proof.
  assert (H : forall s, JS.trim s = EmptyString ->
    deconstruct s (mkMachine (mk 1 1 1733011200000 0 (-1)) [])
    = (Normal
         (Parts.mk (JS.Finite 1733011200000) (JS.Finite 0) (JS.Finite 0)
                   (JS.Finite 0) (JS.Date_new (JS.Finite 1733011200000))),
       mkMachine (mk 1 1 1733011200000 0 (-1)) [])).
  { intros s Hs.
    apply (deconstruct_blank s (mkMachine (mk 1 1 1733011200000 0 (-1)) []) Hs).
    unfold MAX_SAFE_INTEGER. simpl. lia. }
  split; [apply H; reflexivity |].
  rewrite (H "   "%string eq_refl), (H ""%string eq_refl). reflexivity.
Defined.

(** X10. Within a millisecond the ids of an instance are consecutive
    integers: a call that reads the millisecond of the last id, with the
    sequence below 4095, returns that id plus one and takes one reading. *)
Theorem getId_next_in_millisecond (g : t) (now : Z) (rest : list Z) :
  wf g -> now = lastTimestamp g -> sequence g < 4095 ->
  getId (mkMachine g (now :: rest))
  = (Normal (JS.toString (getId_id g now + 1)),
     mkMachine (with_state g (sequence g + 1) now) rest).
Proof.
  intros Hg Hnow Hroom. pose proof Hg as (Hw & Hp & Hs).
  rewrite getId_same_millisecond by (try assumption; lia).
  do 3 f_equal.
  rewrite !getId_id_sum; [| assumption | apply with_state_wf; [assumption | lia]].
  cbn [with_state workerId processId sequence epoch]. lia.
Qed.

Lemma getId_next_in_millisecond_witness :
  getId (mkMachine (mk 1 1 1000 41 1000) [1000; 1001])
  = (Normal "135210", mkMachine (mk 1 1 1000 42 1000) [1001]) /\
  getId_id (mk 1 1 1000 41 1000) 1000 = 135209.
Proof.
  split; [| reflexivity].
  apply (getId_next_in_millisecond (mk 1 1 1000 41 1000) 1000 [1001]).
  - repeat split; simpl; lia.
  - reflexivity.
  - simpl. lia.
Defined.

(** ** The service *)

Section ServiceFacts.

(** The service's [getId()] on a Snowflake generator is that generator's
    [getId()] on the service's clock. *)
Lemma Service_getId_snowflake (svc : Service.t) (env : Env.t) (g : t) :
  Service.generator svc = Service.snowflake g ->
  Service.getId (svc, env)
  = (fst (getId (mkMachine g (Env.clock env))),
     (Service.mk (Service.options svc)
                 (Service.snowflake (this (snd (getId (mkMachine g (Env.clock env)))))),
      Env.mk (clock (snd (getId (mkMachine g (Env.clock env)))))
             (Env.library env) (Env.requests env))).
Proof.
  intros Hgen. unfold Service.getId. rewrite Hgen.
  destruct (getId (mkMachine g (Env.clock env))) as [r m]. reflexivity.
Qed.

Lemma Service_getIds_snowflake (n : nat) :
  forall svc env g,
    Service.generator svc = Service.snowflake g ->
    Service.getIds n (svc, env)
    = (fst (calls n (mkMachine g (Env.clock env))),
       (Service.mk (Service.options svc)
                   (Service.snowflake (this (snd (calls n (mkMachine g (Env.clock env)))))),
        Env.mk (clock (snd (calls n (mkMachine g (Env.clock env)))))
               (Env.library env) (Env.requests env))).
Proof.
  induction n as [| n IH]; intros svc env g Hgen.
  - cbn [Service.getIds calls fst snd this clock].
    destruct svc as [o gen], env as [c l r]. cbn in *. subst gen. reflexivity.
  - cbn [Service.getIds calls].
    rewrite (Service_getId_snowflake svc env g Hgen).
    destruct (getId (mkMachine g (Env.clock env))) as [r [g1 rest]].
    cbn [fst snd this clock].
    rewrite (IH (Service.mk (Service.options svc) (Service.snowflake g1))
                (Env.mk rest (Env.library env) (Env.requests env)) g1 eq_refl).
    cbn [Service.options Env.clock Env.library Env.requests].
    destruct (calls n (mkMachine g1 rest)) as [rs m2]. reflexivity.
Qed.

(** The first call on a new generator gives the same id whatever follows
    the reading on the clock. *)
Lemma getId_first_call_again (g : t) (now : Z) (rest later : list Z)
      (id : string) (m' : Machine) :
  sequence g = 0 -> lastTimestamp g = -1 ->
  getId (mkMachine g (now :: rest)) = (Normal id, m') ->
  getId (mkMachine g (now :: later)) = (Normal id, mkMachine (this m') later).
Proof.
  intros Hs Hl E.
  destruct (getId_first_call g now rest id m' Hs Hl E) as (Hnow & -> & ->).
  cbn [this].
  destruct (Z.eq_dec now (-1)) as [-> | Hne].
  - rewrite getId_same_millisecond by lia. rewrite Hs. reflexivity.
  - rewrite getId_new_millisecond by lia.
    replace (now =? -1) with false by (symmetry; apply Z.eqb_neq; lia).
    reflexivity.
Qed.

(** A service made for the type ['snowflake'] holds the generator the
    Snowflake constructor makes of its Snowflake options. *)
Lemma Service_constructor_snowflake (o : ServiceOptions.t) (svc : Service.t) :
  Service.constructor (Some o) = Normal svc ->
  ServiceOptions.type_or_default o = IdGeneratorType.snowflake ->
  Service.options svc = o /\
  exists g,
    SnowflakeGenerator.constructor (ServiceOptions.snowflake o) = Normal g /\
    Service.generator svc = Service.snowflake g.
Proof.
  unfold Service.constructor. intros H Hty. rewrite Hty in H.
  cbn [Service.createGenerator] in H.
  destruct (constructor (ServiceOptions.snowflake o)) as [g | e |]; try discriminate.
  injection H as <-. split; [reflexivity |]. exists g. split; reflexivity.
Qed.

(** The worker id and process id [deconstruct] reads from an id of
    [getId]. *)
Lemma deconstruct_worker_process (g : t) (timestamp : Z) (m : Machine) :
  wf g ->
  exists parts,
    deconstruct (JS.toString (getId_id g timestamp)) m = (Normal parts, m) /\
    Parts.workerId parts = JS.Finite (workerId g) /\
    Parts.processId parts = JS.Finite (processId g).
Proof.
  intros Hg.
  rewrite (deconstruct_parsed _ _ _ (StringToBigInt_toString _)).
  eexists. split; [reflexivity |]. cbn [Parts.workerId Parts.processId].
  rewrite getId_id_sum by assumption.
  destruct Hg as (Hw & Hp & Hs).
  destruct (fields_of_sum (JS.sub timestamp (epoch g)) _ _ _ Hw Hp Hs)
    as (_ & -> & -> & _).
  split; apply Number_safe; unfold MAX_SAFE_INTEGER;
    change (2 ^ 53 - 1) with 9007199254740991; lia.
Qed.

End ServiceFacts.

(** X11. A service whose generator is a Snowflake generator keeps it from
    one [getId()] to the next: [n] calls of the service's [getId()] are [n]
    calls on that one instance, so the ids they return are strictly
    increasing and never repeat, while every reading of the clock less the
    epoch is an integer a double holds (magnitude at most
    [MAX_SAFE_INTEGER]); the calls leave the options and the two packages
    untouched. *)
Theorem Service_getIds_strictly_increasing
        (n : nat) (svc : Service.t) (env : Env.t) (g : t) :
  Service.generator svc = Service.snowflake g ->
  wf g ->
  Forall (fun now => Z.abs (now - epoch g) <= MAX_SAFE_INTEGER) (Env.clock env) ->
  let run := Service.getIds n (svc, env) in
  fst run = fst (calls n (mkMachine g (Env.clock env))) /\
  Service.options (fst (snd run)) = Service.options svc /\
  Service.generator (fst (snd run))
  = Service.snowflake (this (snd (calls n (mkMachine g (Env.clock env))))) /\
  Env.library (snd (snd run)) = Env.library env /\
  Env.requests (snd (snd run)) = Env.requests env /\
  exists values : list Z,
    map JS.StringToBigInt (returned (fst run)) = map Some values /\
    StronglySorted Z.lt values /\
    NoDup (returned (fst run)).
Proof.
  intros Hgen Hg Hsafe run. subst run.
  rewrite (Service_getIds_snowflake n svc env g Hgen). cbn [fst snd].
  repeat (split; [reflexivity |]).
  destruct (calls_returned n g (Env.clock env) Hg) as (zs & Hzs & Hsorted' & _).
  destruct (Hsorted' Hsafe) as (Hsorted & _).
  exists zs. rewrite Hzs.
  split; [apply map_StringToBigInt_toString |].
  split; [assumption |].
  apply NoDup_map_toString, StronglySorted_NoDup. assumption.
Qed.

(** A service made for the type ['snowflake'], three calls in one
    millisecond. *)
Lemma Service_getIds_strictly_increasing_witness :
  Service.constructor
    (Some (ServiceOptions.mk (Some IdGeneratorType.snowflake)
                             (Some (SnowflakeOptions.mk (Some 1) (Some 1) (Some 1000)))
                             None))
  = Normal (Service.mk
              (ServiceOptions.mk (Some IdGeneratorType.snowflake)
                                 (Some (SnowflakeOptions.mk (Some 1) (Some 1) (Some 1000)))
                                 None)
              (Service.snowflake (mk 1 1 1000 0 (-1)))) /\
  returned
    (fst (Service.getIds 3
            (Service.mk
               (ServiceOptions.mk (Some IdGeneratorType.snowflake)
                                  (Some (SnowflakeOptions.mk (Some 1) (Some 1) (Some 1000)))
                                  None)
               (Service.snowflake (mk 1 1 1000 0 (-1))),
             Env.mk [1000; 1000; 1000] [] [])))
  = ["135168"; "135169"; "135170"] /\
  exists values : list Z,
    map JS.StringToBigInt
      (returned
         (fst (Service.getIds 3
                 (Service.mk
                    (ServiceOptions.mk (Some IdGeneratorType.snowflake)
                                       (Some (SnowflakeOptions.mk (Some 1) (Some 1) (Some 1000)))
                                       None)
                    (Service.snowflake (mk 1 1 1000 0 (-1))),
                  Env.mk [1000; 1000; 1000] [] []))))
    = map Some values /\
    StronglySorted Z.lt values.
Proof.
  split; [reflexivity |]. split; [reflexivity |].
  destruct (Service_getIds_strictly_increasing 3
              (Service.mk
                 (ServiceOptions.mk (Some IdGeneratorType.snowflake)
                                    (Some (SnowflakeOptions.mk (Some 1) (Some 1) (Some 1000)))
                                    None)
                 (Service.snowflake (mk 1 1 1000 0 (-1))))
              (Env.mk [1000; 1000; 1000] [] []) (mk 1 1 1000 0 (-1)) eq_refl
              ltac:(repeat split; simpl; lia)
              ltac:(repeat constructor; unfold MAX_SAFE_INTEGER; simpl; lia))
    as (_ & _ & _ & _ & _ & values & Hv & Hs & _).
  exists values. split; assumption.
Defined.

(** X12. [getSnowflake()] does not know the ids the service's own generator
    has given: on a service made for the type ['snowflake'], a
    [getSnowflake()] without options that reads the millisecond of the
    service's first [getId()] returns that same id again, and leaves the
    service as it was. *)
Theorem Service_getSnowflake_repeats_getId
        (o : ServiceOptions.t) (svc : Service.t) (env : Env.t)
        (now : Z) (rest : list Z) (id : string) (s1 : Service.t * Env.t) :
  Service.constructor (Some o) = Normal svc ->
  ServiceOptions.type_or_default o = IdGeneratorType.snowflake ->
  Env.clock env = now :: now :: rest ->
  Service.getId (svc, env) = (Normal id, s1) ->
  Service.getSnowflake None s1
  = (Normal id, (fst s1, Env.mk rest (Env.library env) (Env.requests env))).
Proof.
  intros Hc Hty Hclock E.
  destruct (Service_constructor_snowflake o svc Hc Hty) as (Ho & g & Hg & Hgen).
  destruct (constructor_wf _ _ Hg) as (_ & Hs & Hl).
  rewrite (Service_getId_snowflake svc env g Hgen), Hclock in E.
  destruct (getId (mkMachine g (now :: now :: rest))) as [r m'] eqn:E1.
  cbn [fst snd] in E. injection E as -> <-.
  pose proof (getId_first_call_again g now (now :: rest) rest id m' Hs Hl E1) as E2.
  destruct (getId_first_call g now (now :: rest) id m' Hs Hl E1) as (_ & _ & Hm').
  unfold Service.getSnowflake, IdService.getSnowflake.
  cbn [fst snd Service.options Env.clock Env.library Env.requests
       IdService.options ServiceOptions.view IdGeneratorOptions.snowflake].
  rewrite Ho, Hg. rewrite Hm'. cbn [clock]. rewrite E2. reflexivity.
Qed.

Lemma Service_getSnowflake_repeats_getId_witness :
  let o := ServiceOptions.mk (Some IdGeneratorType.snowflake)
             (Some (SnowflakeOptions.mk (Some 1) (Some 1) (Some 1000))) None in
  let svc := Service.mk o (Service.snowflake (mk 1 1 1000 0 (-1))) in
  let svc1 := Service.mk o (Service.snowflake (mk 1 1 1000 0 1000)) in
  Service.getId (svc, Env.mk [1000; 1000; 1001] [] [])
  = (Normal "135168", (svc1, Env.mk [1000; 1001] [] [])) /\
  Service.getSnowflake None (svc1, Env.mk [1000; 1001] [] [])
  = (Normal "135168", (svc1, Env.mk [1001] [] [])).
Proof.
  intros o svc svc1. split; [reflexivity |].
  exact (Service_getSnowflake_repeats_getId o svc (Env.mk [1000; 1000; 1001] [] [])
           1000 [1001] "135168" (svc1, Env.mk [1000; 1001] [] [])
           eq_refl eq_refl eq_refl eq_refl).
Defined.

(** X13. [configure] makes a new generator every time: on a service made
    for the type ['snowflake'], configuring the type ['snowflake'] again,
    with no new Snowflake options, puts the sequence back to its start, and
    a [getId()] that reads the millisecond of the id given before the
    [configure] returns that id again. *)
Theorem Service_configure_restarts_sequence
        (o c : ServiceOptions.t) (svc : Service.t) (env : Env.t)
        (now : Z) (rest : list Z) (id : string) (s1 : Service.t * Env.t) :
  Service.constructor (Some o) = Normal svc ->
  ServiceOptions.type_or_default o = IdGeneratorType.snowflake ->
  ServiceOptions.type_or_default c = IdGeneratorType.snowflake ->
  ServiceOptions.snowflake c = None ->
  Env.clock env = now :: now :: rest ->
  Service.getId (svc, env) = (Normal id, s1) ->
  exists s2,
    Service.configure c s1 = (Normal tt, s2) /\
    fst (Service.getId s2) = Normal id.
Proof.
  intros Hc Hty Htyc Hsc Hclock E.
  destruct (Service_constructor_snowflake o svc Hc Hty) as (Ho & g & Hg & Hgen).
  destruct (constructor_wf _ _ Hg) as (_ & Hs & Hl).
  rewrite (Service_getId_snowflake svc env g Hgen), Hclock in E.
  destruct (getId (mkMachine g (now :: now :: rest))) as [r m'] eqn:E1.
  cbn [fst snd] in E. injection E as -> <-.
  pose proof (getId_first_call_again g now (now :: rest) rest id m' Hs Hl E1) as E2.
  destruct (getId_first_call g now (now :: rest) id m' Hs Hl E1) as (_ & _ & Hm').
  unfold Service.configure. rewrite Htyc.
  cbn [Service.createGenerator Service.options ServiceOptions.spread
       ServiceOptions.snowflake].
  rewrite Hsc, Ho. cbn [or_else]. rewrite Hg.
  eexists. split; [reflexivity |].
  rewrite Service_getId_snowflake with (g := g) by reflexivity.
  cbn [fst Env.clock]. rewrite Hm'. cbn [clock]. rewrite E2. reflexivity.
Qed.

Lemma Service_configure_restarts_sequence_witness :
  let o := ServiceOptions.mk (Some IdGeneratorType.snowflake)
             (Some (SnowflakeOptions.mk (Some 1) (Some 1) (Some 1000))) None in
  let c := ServiceOptions.mk (Some IdGeneratorType.snowflake) None None in
  let svc := Service.mk o (Service.snowflake (mk 1 1 1000 0 (-1))) in
  let svc1 := Service.mk o (Service.snowflake (mk 1 1 1000 0 1000)) in
  Service.getId (svc, Env.mk [1000; 1000; 1001] [] [])
  = (Normal "135168", (svc1, Env.mk [1000; 1001] [] [])) /\
  exists s2,
    Service.configure c (svc1, Env.mk [1000; 1001] [] []) = (Normal tt, s2) /\
    fst (Service.getId s2) = Normal "135168".
Proof.
  intros o c svc svc1. split; [reflexivity |].
  exact (Service_configure_restarts_sequence o c svc (Env.mk [1000; 1000; 1001] [] [])
           1000 [1001] "135168" (svc1, Env.mk [1000; 1001] [] [])
           eq_refl eq_refl eq_refl eq_refl eq_refl eq_refl).
Defined.

(** X14. [configure] takes the type from its argument alone: called with
    options that name no type, it installs the UUID v4 generator whatever
    the service generated before, while the merged options keep the type
    they had; the next [getId()] is a call of [uuidv4()]. *)
Theorem Service_configure_without_type
        (c : ServiceOptions.t) (svc : Service.t) (env : Env.t) :
  ServiceOptions.type c = None ->
  let merged := ServiceOptions.spread (Service.options svc) c in
  Service.configure c (svc, env)
  = (Normal tt, (Service.mk merged Service.uuid_v4, env)) /\
  ServiceOptions.type merged = ServiceOptions.type (Service.options svc) /\
  forall s rest,
    Env.library env = s :: rest ->
    Service.getId (Service.mk merged Service.uuid_v4, env)
    = (Normal s,
       (Service.mk merged Service.uuid_v4,
        Env.mk (Env.clock env) rest (Env.requests env ++ [uuidv4_call]))).
Proof.
  intros Hty merged. subst merged.
  unfold Service.configure, ServiceOptions.type_or_default. rewrite Hty.
  cbn [Service.createGenerator].
  split; [reflexivity |]. split.
  - cbn [ServiceOptions.spread ServiceOptions.type]. rewrite Hty. reflexivity.
  - intros s rest Hlib.
    unfold Service.getId, UuidV4Generator.getId, library_call.
    cbn [Service.generator]. rewrite Hlib. reflexivity.
Qed.

(** A service generating Snowflake ids is given new Snowflake options and
    no type: it generates UUIDs from then on. *)
Lemma Service_configure_without_type_witness :
  let o := ServiceOptions.mk (Some IdGeneratorType.snowflake)
             (Some (SnowflakeOptions.mk (Some 1) (Some 1) (Some 1000))) None in
  let c := ServiceOptions.mk None
             (Some (SnowflakeOptions.mk (Some 2) (Some 2) (Some 1000))) None in
  let merged := ServiceOptions.mk (Some IdGeneratorType.snowflake)
                  (Some (SnowflakeOptions.mk (Some 2) (Some 2) (Some 1000))) None in
  let svc := Service.mk o (Service.snowflake (mk 1 1 1000 0 (-1))) in
  Service.configure c (svc, Env.mk [1000] ["9b1deb4d"] [])
  = (Normal tt, (Service.mk merged Service.uuid_v4, Env.mk [1000] ["9b1deb4d"] [])) /\
  Service.getId (Service.mk merged Service.uuid_v4, Env.mk [1000] ["9b1deb4d"] [])
  = (Normal "9b1deb4d",
     (Service.mk merged Service.uuid_v4, Env.mk [1000] [] [uuidv4_call])).
Proof.
  intros o c merged svc.
  destruct (Service_configure_without_type c svc (Env.mk [1000] ["9b1deb4d"] []) eq_refl)
    as (Hconf & _ & Hget).
  split; [exact Hconf |].
  exact (Hget "9b1deb4d" [] eq_refl).
Defined.

(** X15. A [configure] that throws has already merged its options into the
    service and leaves the generator that was there: it throws for the
    types ['uuidv7'] and ['cuid'], and for ['snowflake'] with the error of
    the Snowflake constructor on the merged Snowflake options. *)
Theorem Service_configure_throw
        (c : ServiceOptions.t) (svc : Service.t) (env : Env.t)
        (e : exn) (s' : Service.t * Env.t) :
  Service.configure c (svc, env) = (Throw e, s') ->
  let merged := ServiceOptions.spread (Service.options svc) c in
  s' = (Service.mk merged (Service.generator svc), env) /\
  ((ServiceOptions.type_or_default c = IdGeneratorType.uuidv7 /\
    e = Error "UUIDv7 generator not yet implemented") \/
   (ServiceOptions.type_or_default c = IdGeneratorType.cuid /\
    e = Error "CUID generator not yet implemented") \/
   (ServiceOptions.type_or_default c = IdGeneratorType.snowflake /\
    SnowflakeGenerator.constructor (ServiceOptions.snowflake merged) = Throw e)).
Proof.
  intros H. cbv zeta. unfold Service.configure in H.
  destruct (ServiceOptions.type_or_default c) eqn:Hty;
    cbn [Service.createGenerator] in H; try discriminate.
  - injection H as <- <-. split; [reflexivity |]. left. split; reflexivity.
  - destruct (constructor _) as [g | e' |] eqn:Hg; try discriminate.
    injection H as <- <-. split; [reflexivity |]. right. right.
    split; reflexivity.
  - injection H as <- <-. split; [reflexivity |]. right. left. split; reflexivity.
Qed.

(** A UUID service is configured for ['snowflake'] with worker id 32: the
    call throws, the options are changed, the generator is not. *)
Lemma Service_configure_throw_witness :
  let c := ServiceOptions.mk (Some IdGeneratorType.snowflake)
             (Some (SnowflakeOptions.mk (Some 32) None None)) None in
  let svc := Service.mk ServiceOptions.empty Service.uuid_v4 in
  Service.configure c (svc, Env.mk [] [] [])
  = (Throw (Error "Worker ID must be between 0 and 31"),
     (Service.mk c Service.uuid_v4, Env.mk [] [] [])) /\
  (Service.mk c Service.uuid_v4, Env.mk [] [] [])
  = (Service.mk (ServiceOptions.spread (Service.options svc) c)
                (Service.generator svc), Env.mk [] [] []).
Proof.
  intros c svc. split; [reflexivity |].
  exact (proj1 (Service_configure_throw c svc (Env.mk [] [] [])
                  (Error "Worker ID must be between 0 and 31")
                  (Service.mk c Service.uuid_v4, Env.mk [] [] []) eq_refl)).
Defined.

Section MoreConstruction.

(** The ids of a new instance: those supplied, else 1. *)
Lemma constructor_ids (options : option SnowflakeOptions.t) (g : t) :
  constructor options = Normal g ->
  workerId g = nullish (options?.SnowflakeOptions.workerId) 1 /\
  processId g = nullish (options?.SnowflakeOptions.processId) 1.
Proof.
  unfold constructor.
  destruct (_ || _); [discriminate |].
  destruct (_ || _); [discriminate |].
  intros [= <-]. split; reflexivity.
Qed.

End MoreConstruction.

(** X16. Making the service throws exactly for the types ['uuidv7'] and
    ['cuid'], and for the type ['snowflake'] when the Snowflake constructor
    refuses the Snowflake options.  Under any other type the Snowflake
    options are not looked at: with no type, a service is made whatever
    they hold. *)
Theorem Service_constructor_throws_iff (options : option ServiceOptions.t) :
  let o := match options with
           | Some o => o
           | None => ServiceOptions.empty
           end in
  ((exists e, Service.constructor options = Throw e) <->
   ServiceOptions.type_or_default o = IdGeneratorType.uuidv7 \/
   ServiceOptions.type_or_default o = IdGeneratorType.cuid \/
   (ServiceOptions.type_or_default o = IdGeneratorType.snowflake /\
    exists e, SnowflakeGenerator.constructor (ServiceOptions.snowflake o) = Throw e)) /\
  (forall so no,
      Service.constructor (Some (ServiceOptions.mk None so no))
      = Normal (Service.mk (ServiceOptions.mk None so no) Service.uuid_v4)).
Proof.
  intros o. split; [| intros so no; reflexivity].
  unfold Service.constructor. fold o.
  destruct (ServiceOptions.type_or_default o) eqn:Hty; cbn [Service.createGenerator].
  - split; [intros (e & H); discriminate |].
    intros [H | [H | (H & _)]]; discriminate.
  - split; [intros _; left; reflexivity | intros _; eexists; reflexivity].
  - destruct (constructor (ServiceOptions.snowflake o)) as [g | e |] eqn:Hg.
    + split; [intros (e & H); discriminate |].
      intros [H | [H | (_ & e & H)]]; discriminate.
    + split; [| intros _; eexists; reflexivity].
      intros _. right. right. split; [reflexivity |]. exists e. reflexivity.
    + exfalso. revert Hg. unfold constructor.
      destruct (_ || _); [discriminate |].
      destruct (_ || _); discriminate.
  - split; [intros _; right; left; reflexivity | intros _; eexists; reflexivity].
  - split; [intros (e & H); discriminate |].
    intros [H | [H | (H & _)]]; discriminate.
  - split; [intros (e & H); discriminate |].
    intros [H | [H | (H & _)]]; discriminate.
Qed.

Section OneInstance.



End OneInstance.



(** X18. Options passed to [getSnowflake] replace the configured Snowflake
    options as a whole: the id is the same whatever the service was
    configured with, and decodes to the worker id and the process id of the
    options passed, or to 1 where they name none.  The call takes one
    reading and leaves the service as it was. *)
Theorem Service_getSnowflake_options_replace
        (svc : Service.t) (env : Env.t) (o : SnowflakeOptions.t)
        (now : Z) (rest : list Z) (id : string) (s' : Service.t * Env.t) :
  Env.clock env = now :: rest ->
  Service.getSnowflake (Some o) (svc, env) = (Normal id, s') ->
  s' = (svc, Env.mk rest (Env.library env) (Env.requests env)) /\
  (forall svc2,
      Service.getSnowflake (Some o) (svc2, env)
      = (Normal id, (svc2, Env.mk rest (Env.library env) (Env.requests env)))) /\
  (forall decoder readings,
   exists parts,
     deconstruct id (mkMachine decoder readings)
     = (Normal parts, mkMachine decoder readings) /\
     Parts.workerId parts = JS.Finite (nullish (SnowflakeOptions.workerId o) 1) /\
     Parts.processId parts = JS.Finite (nullish (SnowflakeOptions.processId o) 1)).
Proof.
  intros Hclock H.
  unfold Service.getSnowflake, IdService.getSnowflake in *.
  rewrite Hclock in *.
  destruct (constructor (Some o)) as [g | e |] eqn:Hg; try discriminate.
  destruct (constructor_wf _ _ Hg) as (Hwf & Hs & Hl).
  destruct (constructor_ids _ _ Hg) as (Hw & Hp). cbn [opt_chain] in Hw, Hp.
  destruct (getId (mkMachine g (now :: rest))) as [r m'] eqn:E.
  injection H as -> <-.
  destruct (getId_first_call g now rest id m' Hs Hl E) as (Hnow & Hid & ->).
  cbn [clock]. split; [reflexivity |]. split.
  - intros svc2. reflexivity.
  - intros decoder readings. rewrite Hid.
    assert (Hwf' : wf (with_state g (if now =? -1 then 1 else 0) now)).
    { apply with_state_wf; [assumption |]. destruct (now =? -1); lia. }
    destruct (deconstruct_worker_process _ now (mkMachine decoder readings) Hwf')
      as (parts & Hd & Hpw & Hpp).
    exists parts. split; [exact Hd |].
    cbn [with_state workerId processId] in Hpw, Hpp.
    rewrite Hpw, Hpp, Hw, Hp. split; reflexivity.
Qed.

(** A service configured for worker 3, process 4 and epoch 1000 is asked
    for an id with worker 5 only: process 1 and the default epoch are
    used. *)
Lemma Service_getSnowflake_options_replace_witness :
  let configured := ServiceOptions.mk None
                      (Some (SnowflakeOptions.mk (Some 3) (Some 4) (Some 1000))) None in
  let svc := Service.mk configured Service.uuid_v4 in
  let o := SnowflakeOptions.mk (Some 5) None None in
  Service.getSnowflake (Some o) (svc, Env.mk [1733011200001] [] [])
  = (Normal "4853760", (svc, Env.mk [] [] [])) /\
  exists parts,
    deconstruct "4853760" (mkMachine (mk 1 1 1733011200000 0 (-1)) [])
    = (Normal parts, mkMachine (mk 1 1 1733011200000 0 (-1)) []) /\
    Parts.workerId parts = JS.Finite 5 /\
    Parts.processId parts = JS.Finite 1.
Proof.
  intros configured svc o. split; [reflexivity |].
  destruct (Service_getSnowflake_options_replace svc (Env.mk [1733011200001] [] []) o
              1733011200001 [] "4853760" (svc, Env.mk [] [] []) eq_refl eq_refl)
    as (_ & _ & Hdecode).
  exact (Hdecode (mk 1 1 1733011200000 0 (-1)) []).
Defined.

(** X19. [NanoIdGenerator] never hands a size of 0 or an empty alphabet to
    the [nanoid] package: with a non-empty alphabet it calls
    [customAlphabet] with that alphabet and the size, or 21 when the size is
    0 or missing; otherwise it calls [nanoid] with the size when there is a
    size other than 0, and [nanoid()] with no argument when there is
    not. *)
Theorem NanoIdGenerator_call (options : option NanoIdOptions.t)
        (env : Env.t) (s : string) (rest : list string) :
  Env.library env = s :: rest ->
  exists c,
    NanoIdGenerator.getId (NanoIdGenerator.constructor options) env
    = (Normal s, Env.mk (Env.clock env) rest (Env.requests env ++ [c])) /\
    c = match options?.NanoIdOptions.alphabet, options?.NanoIdOptions.size with
        | Some (String a0 a), Some size =>
            customAlphabet_call (String a0 a) (if size =? 0 then 21 else size)
        | Some (String a0 a), None => customAlphabet_call (String a0 a) 21
        | _, Some size => if size =? 0 then nanoid_call None
                          else nanoid_call (Some size)
        | _, None => nanoid_call None
        end /\
    c <> nanoid_call (Some 0) /\
    (forall alphabet, c <> customAlphabet_call alphabet 0) /\
    (forall size, c <> customAlphabet_call EmptyString size) /\
    c <> uuidv4_call.
Proof.
  intros Hlib.
  unfold NanoIdGenerator.getId, NanoIdGenerator.constructor, library_call.
  rewrite Hlib.
  destruct (options?.NanoIdOptions.alphabet) as [[| a0 a] |];
    destruct (options?.NanoIdOptions.size) as [size |];
    cbn [logical_or]; try destruct (Z.eqb_spec size 0);
    eexists; (split; [reflexivity |]); (split; [reflexivity |]);
    repeat split; try discriminate; try congruence;
    intros; intro Hc; injection Hc; intros; subst; try lia; try discriminate.
Qed.

(** The alphabet of sixteen hexadecimal digits with size 0: the package is
    asked for 21 characters. *)
Lemma NanoIdGenerator_call_witness :
  NanoIdGenerator.getId
    (NanoIdGenerator.constructor
       (Some (NanoIdOptions.mk (Some "0123456789ABCDEF") (Some 0))))
    (Env.mk [] ["3F2A"] [])
  = (Normal "3F2A",
     Env.mk [] [] [customAlphabet_call "0123456789ABCDEF" 21]).
Proof.
  destruct (NanoIdGenerator_call
              (Some (NanoIdOptions.mk (Some "0123456789ABCDEF") (Some 0)))
              (Env.mk [] ["3F2A"] []) "3F2A" [] eq_refl)
    as (c & Hcall & Hc & _).
  rewrite Hcall, Hc. reflexivity.
Defined.

(** X20. Options passed to [getNanoId] are merged into the configured ones
    key by key, unlike those of [getSnowflake]: a call that passes a size
    keeps a configured alphabet, a call that passes an alphabet keeps a
    configured size, and a call without options uses the configured ones.
    The call leaves the service as it was. *)
Theorem Service_getNanoId_merges
        (svc : Service.t) (env : Env.t) (s : string) (rest : list string) :
  Env.library env = s :: rest ->
  forall alphabet size,
    ServiceOptions.nanoid (Service.options svc)
    = Some (NanoIdOptions.mk alphabet size) ->
    (forall size',
        Service.getNanoId (Some (NanoIdOptions.mk None (Some size'))) (svc, env)
        = (let (r, env') :=
             NanoIdGenerator.getId
               (NanoIdGenerator.constructor
                  (Some (NanoIdOptions.mk alphabet (Some size')))) env in
           (r, (svc, env')))) /\
    (forall alphabet',
        Service.getNanoId (Some (NanoIdOptions.mk (Some alphabet') None)) (svc, env)
        = (let (r, env') :=
             NanoIdGenerator.getId
               (NanoIdGenerator.constructor
                  (Some (NanoIdOptions.mk (Some alphabet') size))) env in
           (r, (svc, env')))) /\
    (forall a0 a size',
        alphabet = Some (String a0 a) -> size' <> 0 ->
        Service.getNanoId (Some (NanoIdOptions.mk None (Some size'))) (svc, env)
        = (Normal s,
           (svc, Env.mk (Env.clock env) rest
                        (Env.requests env ++ [customAlphabet_call (String a0 a) size'])))) /\
    Service.getNanoId None (svc, env)
    = (let (r, env') :=
         NanoIdGenerator.getId
           (NanoIdGenerator.constructor (Some (NanoIdOptions.mk alphabet size))) env in
       (r, (svc, env'))).
Proof.
  intros Hlib alphabet size Hconf.
  unfold Service.getNanoId. rewrite Hconf.
  cbn [NanoIdOptions.spread NanoIdOptions.alphabet NanoIdOptions.size or_else opt_chain].
  split; [intros size'; reflexivity |].
  split; [intros alphabet'; reflexivity |].
  split; [| reflexivity].
  intros a0 a size' -> Hsize.
  unfold NanoIdGenerator.getId, NanoIdGenerator.constructor, library_call.
  cbv [NanoIdOptions.spread or_else opt_chain NanoIdOptions.alphabet
       NanoIdOptions.size logical_or].
  rewrite Hlib.
  replace (size' =? 0) with false by (symmetry; apply Z.eqb_neq; assumption).
  reflexivity.
Qed.

(** A service configured with the hexadecimal alphabet is asked for a
    NanoId of size 8. *)
Lemma Service_getNanoId_merges_witness :
  let svc := Service.mk
               (ServiceOptions.mk None None
                  (Some (NanoIdOptions.mk (Some "0123456789ABCDEF") (Some 16))))
               Service.uuid_v4 in
  Service.getNanoId (Some (NanoIdOptions.mk None (Some 8)))
                    (svc, Env.mk [] ["3F2A9C01"] [])
  = (Normal "3F2A9C01",
     (svc, Env.mk [] [] [customAlphabet_call "0123456789ABCDEF" 8])).
Proof.
  intros svc.
  destruct (Service_getNanoId_merges svc (Env.mk [] ["3F2A9C01"] []) "3F2A9C01" []
              eq_refl (Some "0123456789ABCDEF"%string) (Some 16) eq_refl)
    as (_ & _ & H & _).
  exact (H "0"%char "123456789ABCDEF"%string 8 eq_refl ltac:(lia)).
Defined.
